(** * gorm-migration-handler: discovery, diff capture and execution of migrations

    A shallow embedding of [migrationhandler.go].  Go strings are byte
    strings ([string]); the [migrations] map of [getMigrations] is a
    [gmap string migration]; a function that can return an error or panic
    returns a [result]; text written to the standard output is threaded as
    a list of printed chunks. *)

From Stdlib Require Import ZArith Ascii String List.
From stdpp Require Import base option list strings pretty gmap fin_maps.

(** ** Results of Go calls *)

Inductive result (A : Type) : Type :=
| Ok (a : A)
| Error (e : string)
| Panic (msg : string).
Arguments Ok {A} a.
Arguments Error {A} e.
Arguments Panic {A} msg.

Definition is_Ok {A} (r : result A) : bool :=
  match r with Ok _ => true | _ => false end.

(** ** The parts of package [strings] the handler calls *)

Module strings.

Definition nl : string := String (ascii_of_nat 10) "".

Definition byte (c : ascii) : nat := nat_of_ascii c.

Definition in_range (lo hi : nat) (c : ascii) : bool :=
  (lo <=? byte c)%nat && (byte c <=? hi)%nat.

(** [strings.Split(s, sep)] for a one-byte separator: the tokens between
    the separators, [n+1] of them when [sep] occurs [n] times.  The slice
    Go returns has its capacity equal to its length. *)
Fixpoint Split (s : string) (sep : ascii) : list string :=
  match s with
  | EmptyString => [EmptyString]
  | String c r =>
      if Ascii.eqb c sep then EmptyString :: Split r sep
      else match Split r sep with
           | t :: ts => String c t :: ts
           | [] => [String c EmptyString]
           end
  end.

(** [strings.Join(elems, sep)] *)
Fixpoint Join (elems : list string) (sep : string) : string :=
  match elems with
  | [] => ""
  | [e] => e
  | e :: rest => e +:+ sep +:+ Join rest sep
  end.

(** [strings.HasPrefix(s, prefix)] *)
Fixpoint HasPrefix (s prefix : string) {struct prefix} : bool :=
  match prefix, s with
  | EmptyString, _ => true
  | String p ps, String c cs => Ascii.eqb c p && HasPrefix cs ps
  | String _ _, EmptyString => false
  end.

(** [strings.ToUpper] on ASCII text: the letters a to z; other bytes are
    kept. *)
Definition upper (c : ascii) : ascii :=
  if in_range 97 122 c then ascii_of_nat (byte c - 32) else c.

Fixpoint ToUpper (s : string) : string :=
  match s with
  | EmptyString => EmptyString
  | String c r => String (upper c) (ToUpper r)
  end.

(** White space as [strings.TrimSpace] sees it in ASCII text: tab, line
    feed, vertical tab, form feed, carriage return and space. *)
Definition isSpace (c : ascii) : bool :=
  in_range 9 13 c || (byte c =? 32)%nat.

Fixpoint TrimLeft (s : string) : string :=
  match s with
  | EmptyString => EmptyString
  | String c r => if isSpace c then TrimLeft r else s
  end.

(** Drops the white space at the end: a character is kept when it is not
    white space or when something is kept after it. *)
Fixpoint TrimRight (s : string) : string :=
  match s with
  | EmptyString => EmptyString
  | String c r =>
      match TrimRight r with
      | EmptyString => if isSpace c then EmptyString else String c EmptyString
      | t => String c t
      end
  end.

Definition TrimSpace (s : string) : string := TrimRight (TrimLeft s).

End strings.

(** ** Regular expressions, as far as the two file-name filters need them

    Matching is by derivatives over the bytes of the text.  [dot] is Go's
    [.]: one character other than a line feed, where a character is one
    byte or one well-formed UTF-8 sequence of two to four bytes. *)

Module regexp.

Inductive re : Type :=
| Void
| Eps
| Chr (p : ascii -> bool)
| Seq (r1 r2 : re)
| Alt (r1 r2 : re)
| Star (r : re).

Fixpoint nullable (r : re) : bool :=
  match r with
  | Void => false
  | Eps => true
  | Chr _ => false
  | Seq r1 r2 => nullable r1 && nullable r2
  | Alt r1 r2 => nullable r1 || nullable r2
  | Star _ => true
  end.

Fixpoint deriv (c : ascii) (r : re) : re :=
  match r with
  | Void => Void
  | Eps => Void
  | Chr p => if p c then Eps else Void
  | Seq r1 r2 =>
      if nullable r1 then Alt (Seq (deriv c r1) r2) (deriv c r2)
      else Seq (deriv c r1) r2
  | Alt r1 r2 => Alt (deriv c r1) (deriv c r2)
  | Star r1 => Seq (deriv c r1) (Star r1)
  end.

(** [MatchString] for a pattern anchored by [^] and [$]: the whole text
    is in the language of [r]. *)
Fixpoint MatchString (r : re) (s : string) : bool :=
  match s with
  | EmptyString => nullable r
  | String c s' => MatchString (deriv c r) s'
  end.

Definition Plus (r : re) : re := Seq r (Star r).

Fixpoint Lit (s : string) : re :=
  match s with
  | EmptyString => Eps
  | String c s' => Seq (Chr (Ascii.eqb c)) (Lit s')
  end.

Definition rng (lo hi : nat) : re := Chr (strings.in_range lo hi).

(** [\d] *)
Definition digit : re := rng 48 57.

Definition cont : re := rng 128 191.

Definition utf8_multi : re :=
  Alt (Seq (rng 194 223) cont)
 (Alt (Seq (rng 224 224) (Seq (rng 160 191) cont))
 (Alt (Seq (rng 225 236) (Seq cont cont))
 (Alt (Seq (rng 237 237) (Seq (rng 128 159) cont))
 (Alt (Seq (rng 238 239) (Seq cont cont))
 (Alt (Seq (rng 240 240) (Seq (rng 144 191) (Seq cont cont)))
 (Alt (Seq (rng 241 243) (Seq cont (Seq cont cont)))
      (Seq (rng 244 244) (Seq (rng 128 143) (Seq cont cont))))))))).

Definition dot : re :=
  Alt (Chr (fun c => negb (strings.byte c =? 10)%nat)) utf8_multi.

End regexp.

(** [regexp.Compile(`^\d+.*_up.sql$`)] *)
Definition migrationsFilter : regexp.re :=
  regexp.Seq (regexp.Plus regexp.digit)
    (regexp.Seq (regexp.Star regexp.dot)
       (regexp.Seq (regexp.Lit "_up")
          (regexp.Seq regexp.dot (regexp.Lit "sql")))).

(** [regexp.Compile(`^\d+.*_down.sql$`)] *)
Definition rollbackFilter : regexp.re :=
  regexp.Seq (regexp.Plus regexp.digit)
    (regexp.Seq (regexp.Star regexp.dot)
       (regexp.Seq (regexp.Lit "_down")
          (regexp.Seq regexp.dot (regexp.Lit "sql")))).

(** ** The file system, as package [os] shows it to the handler

    A path names a directory with its listing or a regular file with its
    content.  A listing may name an entry that cannot be read (a dangling
    link, a file removed in between): [ReadFile] fails on it. *)

Record DirEntry : Type := mkDirEntry { Name : string; IsDir : bool }.

Inductive node : Type :=
| Dir (entries : list DirEntry)
| File (data : string).

Module os.

Definition ReadDir (fs : gmap string node) (path : string) : result (list DirEntry) :=
  match fs !! path with
  | Some (Dir entries) => Ok entries
  | Some (File _) => Error ("readdirent " +:+ path +:+ ": not a directory")
  | None => Error ("open " +:+ path +:+ ": no such file or directory")
  end.

Definition ReadFile (fs : gmap string node) (path : string) : result string :=
  match fs !! path with
  | Some (File data) => Ok data
  | Some (Dir _) => Error ("read " +:+ path +:+ ": is a directory")
  | None => Error ("open " +:+ path +:+ ": no such file or directory")
  end.

(** The directory part and the last element of a path, cut at its last
    slash; a path without a slash lies in ["."]. *)
Fixpoint split_path (p : string) : option string * string :=
  match p with
  | EmptyString => (None, EmptyString)
  | String c r =>
      match split_path r with
      | (Some d, b) => (Some (String c d), b)
      | (None, b) =>
          if Ascii.eqb c "/" then (Some EmptyString, b) else (None, String c b)
      end
  end.

Definition parent (p : string) : string * string :=
  match split_path p with
  | (Some d, b) => (d, b)
  | (None, b) => (".", b)
  end.

(** [os.Create]: the file is created empty, or truncated when it is
    there; its directory has to exist. *)
Definition Create (fs : gmap string node) (p : string) : result (gmap string node) :=
  let '(d, b) := parent p in
  match fs !! d with
  | Some (Dir entries) =>
      match fs !! p with
      | Some (Dir _) => Error ("open " +:+ p +:+ ": is a directory")
      | Some (File _) => Ok (<[p := File ""]> fs)
      | None =>
          Ok (<[p := File ""]> (<[d := Dir (entries ++ [mkDirEntry b false])]> fs))
      end
  | Some (File _) => Error ("open " +:+ p +:+ ": not a directory")
  | None => Error ("open " +:+ p +:+ ": no such file or directory")
  end.

(** Writing [text] to a file that [Create] has just opened. *)
Definition Write (fs : gmap string node) (p text : string) : gmap string node :=
  <[p := File text]> fs.

End os.

(** ** Migrations *)

Record migration : Type := mkMigration {
  id : string;
  name : string;
  migrationSQL : string;
  rollbackSQL : string
}.

(** The zero value of the struct, which a lookup of an absent key gives. *)
Definition zero_migration : migration := mkMigration "" "" "" "".

Definition set_id (m : migration) (v : string) : migration :=
  mkMigration v (name m) (migrationSQL m) (rollbackSQL m).
Definition set_migrationSQL (m : migration) (v : string) : migration :=
  mkMigration (id m) (name m) v (rollbackSQL m).
Definition set_rollbackSQL (m : migration) (v : string) : migration :=
  mkMigration (id m) (name m) (migrationSQL m) v.

(** [s[:n]] on a slice whose capacity is its length: a run-time panic when
    [n] exceeds it. *)
Definition slice_to {A} (n : nat) (s : list A) : option (list A) :=
  if (n <=? length s)%nat then Some (take n s) else None.

Definition slice_panic : string :=
  "runtime error: slice bounds out of range [:2] with capacity 1".

(** What one file contributes: nothing, or a key with the unit stored
    under it. *)
Inductive visit : Type :=
| Skip
| Warn (line : string)
| Store (key : string) (m : migration)
| Crash (msg : string).

(** The body of the [for _, file := range files] loop of [getMigrations]. *)
Definition visit_file (fs : gmap string node) (path : string)
    (migrations : gmap string migration) (file : DirEntry) : visit :=
  if IsDir file then Skip
  else
    let fileName := Name file in
    let filePath := path +:+ "/" +:+ fileName in
    match os.ReadFile fs filePath with
    | Error err | Panic err =>
        Warn ("Error reading file " +:+ fileName +:+ ": " +:+ err +:+ strings.nl)
    | Ok content =>
        let splitName := strings.Split (Name file) "_" in
        let migrationID := hd EmptyString splitName in
        match slice_to 2 splitName with
        | None => Crash slice_panic
        | Some firstTwo =>
            let migrationName := strings.Join firstTwo "_" in
            let foundMigration := default zero_migration (migrations !! migrationName) in
            let foundMigration := set_id foundMigration migrationID in
            if regexp.MatchString migrationsFilter fileName then
              Store migrationName (set_migrationSQL foundMigration content)
            else if regexp.MatchString rollbackFilter fileName then
              Store migrationName (set_rollbackSQL foundMigration content)
            else Skip
        end
    end.

Fixpoint range_files (fs : gmap string node) (path : string) (files : list DirEntry)
    (out : list string) (migrations : gmap string migration)
  : list string * result (gmap string migration) :=
  match files with
  | [] => (out, Ok migrations)
  | file :: rest =>
      match visit_file fs path migrations file with
      | Skip => range_files fs path rest out migrations
      | Warn line => range_files fs path rest (out ++ [line]) migrations
      | Store key m => range_files fs path rest out (<[key := m]> migrations)
      | Crash msg => (out, Panic msg)
      end
  end.

(** [getMigrations(path)]: the text printed and the map returned. *)
Definition getMigrations (fs : gmap string node) (path : string)
  : list string * result (gmap string migration) :=
  match os.ReadDir fs path with
  | Ok files => range_files fs path files [] ∅
  | Error err | Panic err => ([], Error err)
  end.

(** The earlier revision of the pairing step, which keys the map by the
    id alone. *)
Module ById.

Definition visit_file (fs : gmap string node) (path : string)
    (migrations : gmap string migration) (file : DirEntry) : visit :=
  if IsDir file then Skip
  else
    let migrationID := hd EmptyString (strings.Split (Name file) "_") in
    let filePath := path +:+ "/" +:+ Name file in
    match os.ReadFile fs filePath with
    | Error err | Panic err =>
        Warn ("Error reading file " +:+ Name file +:+ ": " +:+ err +:+ strings.nl)
    | Ok content =>
        let migration := default zero_migration (migrations !! migrationID) in
        let migration := set_id migration migrationID in
        if regexp.MatchString migrationsFilter (Name file) then
          Store migrationID (set_migrationSQL migration content)
        else if regexp.MatchString rollbackFilter (Name file) then
          Store migrationID (set_rollbackSQL migration content)
        else Skip
    end.

Fixpoint range_files (fs : gmap string node) (path : string) (files : list DirEntry)
    (out : list string) (migrations : gmap string migration)
  : list string * result (gmap string migration) :=
  match files with
  | [] => (out, Ok migrations)
  | file :: rest =>
      match visit_file fs path migrations file with
      | Skip => range_files fs path rest out migrations
      | Warn line => range_files fs path rest (out ++ [line]) migrations
      | Store key m => range_files fs path rest out (<[key := m]> migrations)
      | Crash msg => (out, Panic msg)
      end
  end.

Definition getMigrations (fs : gmap string node) (path : string)
  : list string * result (gmap string migration) :=
  match os.ReadDir fs path with
  | Ok files => range_files fs path files [] ∅
  | Error err | Panic err =>
      (["Error reading folder: " +:+ err +:+ strings.nl], Error err)
  end.

End ById.

(** A folder of tests: a listing and the files behind it. *)
Definition folder (path : string) (files : list (string * string)) : gmap string node :=
  <[path := Dir (map (fun f => mkDirEntry (fst f) false) files)]>
    (list_to_map (map (fun f => (path +:+ "/" +:+ fst f, File (snd f))) files)).

(** ** The database and the object-relational mapper

    What the handler needs of GORM and of the database behind it: running a
    batch of SQL inside a transaction, committing, and the text a dry run
    of [AutoMigrate] prints.  With no model [AutoMigrate] has nothing to
    visit and prints nothing (the first case of [TestCreateMigration]). *)

Class Orm : Type := {
  Model : Type;
  Schema : Type;
  (** [tx.Exec(sql)]: the error, or the content after the batch *)
  Exec : string -> Schema -> string + Schema;
  (** the error of [tx.Commit()] on the content to commit, if any *)
  CommitError : Schema -> option string;
  (** what [Session(DryRun: true).AutoMigrate(models...)] prints *)
  AutoMigrate : Schema -> list Model -> string;
  AutoMigrate_nil : forall s, AutoMigrate s [] = ""
}.

(** What a connection does to the database, in the order it does it. *)
Inductive stmt : Type :=
| Begin
| Run (sql : string)
| Commit
| Rollback.

(** The database: its content, the [migrations] table of applied ids (in
    the order of insertion, [None] while the table does not exist) and the
    statements it has received. *)
Record Database `{Orm} : Type := mkDatabase {
  schema : Schema;
  ledger : option (list string);
  journal : list stmt
}.
Arguments mkDatabase {_} _ _ _.

(** A transaction: the content as the transaction sees it, and whether it
    has been committed or rolled back. *)
Record Tx `{Orm} : Type := mkTx { work : Schema; done : bool }.
Arguments mkTx {_} _ _.

Module gorm.
Section gorm.
Context `{Orm}.

(** [gorm.Dialector]: it reaches the database or it does not. *)
Inductive Dialector : Type :=
| Reachable
| Unreachable (err : string).

Definition Open (d : Dialector) : option string :=
  match d with
  | Reachable => None
  | Unreachable err => Some err
  end.

Definition log (db : Database) (s : stmt) : Database :=
  mkDatabase (schema db) (ledger db) (journal db ++ [s]).

(** [tx := db.Begin()] *)
Definition BeginTx (db : Database) : Database * Tx :=
  (log db Begin, mkTx (schema db) false).

(** [tx.Exec(sql).Error] *)
Definition ExecTx (sql : string) (db : Database) (tx : Tx)
  : Database * Tx * option string :=
  match Exec sql (work tx) with
  | inl err => (log db (Run sql), tx, Some err)
  | inr s => (log db (Run sql), mkTx s (done tx), None)
  end.

Definition ErrTxDone : string :=
  "sql: transaction has already been committed or rolled back".

(** [tx.Commit().Error]: the content of the transaction becomes the
    content of the database. *)
Definition CommitTx (db : Database) (tx : Tx) : Database * Tx * option string :=
  if done tx then (db, tx, Some ErrTxDone)
  else match CommitError (work tx) with
       | Some err => (log db Rollback, mkTx (work tx) true, Some err)
       | None =>
           (mkDatabase (work tx) (ledger db) (journal db ++ [Commit]),
            mkTx (work tx) true, None)
       end.

(** [tx.Rollback()]: nothing happens once the transaction is done. *)
Definition RollbackTx (db : Database) (tx : Tx) : Database :=
  if done tx then db else log db Rollback.

End gorm.
End gorm.

(** ** Schema-diff capture *)

Module bufio.

(** Drops one carriage return at the end of a line. *)
Fixpoint dropCR (s : string) : string :=
  match s with
  | EmptyString => EmptyString
  | String c EmptyString => if (strings.byte c =? 13)%nat then EmptyString else s
  | String c r => String c (dropCR r)
  end.

(** The text cut at its line feeds; an unfinished last line counts when it
    is not empty. *)
Fixpoint cut (data : string) : list string :=
  match data with
  | EmptyString => []
  | String c r =>
      if (strings.byte c =? 10)%nat then EmptyString :: cut r
      else match cut r with
           | l :: ls => String c l :: ls
           | [] => [String c EmptyString]
           end
  end.

(** The tokens a [Scanner] with the default split function ([ScanLines])
    gives, one for each call of [Scan] that returns true.  What the pipe
    holds is taken to have no line beyond the scanner's buffer of 64 KiB,
    where [Scan] would stop. *)
Definition ScanLines (data : string) : list string := map dropCR (cut data).

End bufio.

(** The body of the [for scanner.Scan()] loop. *)
Definition keep_line (lines text : string) : string :=
  if negb (strings.HasPrefix (strings.ToUpper (strings.TrimSpace text)) "SELECT")
  then lines +:+ text +:+ strings.nl
  else lines.

(** [getChangesAuto(db, models)]: the standard output is a pipe while the
    dry run prints, and what the pipe holds is read line by line. *)
Definition getChangesAuto `{Orm} (db : Database) (models : list Model) : string :=
  let captured := AutoMigrate (schema db) models in
  fold_left keep_line (bufio.ScanLines captured) "".

(** ** Writing the pair of files *)

Definition migrationTemplate (MigrationSQL : string) : string :=
  "-- Write your SQL command here" +:+ strings.nl +:+ MigrationSQL.

(** [generateFiles(migration, folderPath)] *)
Definition generateFiles (fs : gmap string node) (migration : migration)
    (folderPath : string) : gmap string node * option string :=
  match os.ReadDir fs folderPath with
  | Error _ | Panic _ => (fs, Some ("could not find dir " +:+ folderPath))
  | Ok _ =>
      let migrationFileName :=
        folderPath +:+ "/" +:+ id migration +:+ "_" +:+ name migration +:+ "_up.sql" in
      let rollbackFileName :=
        folderPath +:+ "/" +:+ id migration +:+ "_" +:+ name migration +:+ "_down.sql" in
      match os.Create fs migrationFileName with
      | Error err | Panic err => (fs, Some err)
      | Ok fs1 =>
          match os.Create fs1 rollbackFileName with
          | Error err | Panic err => (fs1, Some err)
          | Ok fs2 =>
              let fs3 := os.Write fs2 migrationFileName
                           (migrationTemplate (migrationSQL migration)) in
              let fs4 := os.Write fs3 rollbackFileName
                           (migrationTemplate (rollbackSQL migration)) in
              (fs4, None)
          end
      end
  end.

(** ** The handler *)

Record DBConfig `{Orm} : Type := mkDBConfig {
  Dialector : gorm.Dialector;
  Models : list Model;
  MigrationsFolderPath : string
}.
Arguments mkDBConfig {_} _ _ _.

(** Everything a call can read or change. *)
Record World `{Orm} : Type := mkWorld {
  fs : gmap string node;
  db : Database;
  stdout : list string
}.
Arguments mkWorld {_} _ _ _.

Definition print `{Orm} (w : World) (text : string) : World :=
  mkWorld (fs w) (db w) (stdout w ++ [text]).

Definition println `{Orm} (w : World) (text : string) : World :=
  print w (text +:+ strings.nl).

(** [newDatabase(dbConfig)]: the error of [gorm.Open], if any. *)
Definition newDatabase `{Orm} (dbConfig : DBConfig) : option string :=
  gorm.Open (Dialector dbConfig).

(** [CreateMigration(databaseConfig, migrationName)] at the Unix time
    [now]. *)
Definition CreateMigration `{Orm} (w : World) (now : Z) (databaseConfig : DBConfig)
    (migrationName : string) : World * option string :=
  let newMigration := mkMigration (pretty now) migrationName "" "" in
  let '(w, newMigration) :=
    match newDatabase databaseConfig with
    | Some _ =>
        (println w "Database connection failed skipping auto migration", newMigration)
    | None =>
        let migrationSQL := getChangesAuto (db w) (Models databaseConfig) in
        let w := if String.eqb migrationSQL "" then println w "No auto changes found."
                 else w in
        (w, set_migrationSQL newMigration migrationSQL)
    end in
  let '(fs', err) := generateFiles (fs w) newMigration (MigrationsFolderPath databaseConfig) in
  let w := mkWorld fs' (db w) (stdout w) in
  match err with
  | Some e => (w, Some e)
  | None =>
      (print w ("Migration '" +:+ name newMigration +:+ "' created successfully."
                +:+ strings.nl), None)
  end.

(** ** gormigrate, the engine the handler hands its migrations to

    The package is imported, not part of the handler; this is what
    [gormigrate.New(db, gormigrate.DefaultOptions, migrations)] does on
    [Migrate] and [RollbackLast].  The default options use the table
    [migrations] and no transaction around a run, so every statement of the
    engine goes to the database directly. *)

Module gormigrate.
Section gormigrate.
Context `{Orm}.

Record Migration : Type := mkMigration {
  ID : string;
  Migrate_ : Database -> Database * option string;
  Rollback_ : Database -> Database * option string
}.

Definition quote : string := String (ascii_of_nat 34) EmptyString.

Definition ErrNoMigrationDefined : string := "gormigrate: No migration defined".
Definition ErrMissingID : string := "gormigrate: Missing ID in migration".
Definition ErrNoRunMigration : string := "gormigrate: Could not find last run migration".
Definition ErrMigrationIDDoesNotExist : string :=
  "gormigrate: Tried to migrate to an ID that doesn't exist".
Definition DuplicatedIDError (id : string) : string :=
  "gormigrate: Duplicated migration ID: " +:+ quote +:+ id +:+ quote.
Definition ReservedIDError (id : string) : string :=
  "gormigrate: Reserved migration ID: " +:+ quote +:+ id +:+ quote.
Definition ErrNoTable : string := "no such table: migrations".

Definition initSchemaMigrationID : string := "SCHEMA_INIT".

Fixpoint checkReservedID (migrations : list Migration) : option string :=
  match migrations with
  | [] => None
  | m :: rest =>
      if String.eqb (ID m) initSchemaMigrationID then Some (ReservedIDError (ID m))
      else checkReservedID rest
  end.

(** The ids are looked up in the set of the ids seen so far. *)
Fixpoint checkDuplicatedID (lookup : gset string) (migrations : list Migration)
  : option string :=
  match migrations with
  | [] => None
  | m :: rest =>
      if decide (ID m ∈ lookup) then Some (DuplicatedIDError (ID m))
      else checkDuplicatedID ({[ID m]} ∪ lookup) rest
  end.

Definition checkIDExist (migrations : list Migration) (migrationID : string)
  : option string :=
  if existsb (fun m => String.eqb (ID m) migrationID) migrations then None
  else Some ErrMigrationIDDoesNotExist.

Definition createMigrationTableIfNotExists (db : Database) : Database :=
  match ledger db with
  | Some _ => db
  | None => mkDatabase (schema db) (Some []) (journal db)
  end.

(** Whether the table has a row for [id]; an error without the table. *)
Definition migrationRan (db : Database) (id : string) : result bool :=
  match ledger db with
  | None => Error ErrNoTable
  | Some rows => Ok (bool_decide (id ∈ rows))
  end.

Definition insertMigration (db : Database) (id : string) : Database :=
  mkDatabase (schema db) (option_map (fun rows => rows ++ [id]) (ledger db)) (journal db).

Definition deleteMigration (db : Database) (id : string) : Database :=
  mkDatabase (schema db)
    (option_map (filter (fun row => row ≠ id)) (ledger db)) (journal db).

Definition runMigration (m : Migration) (db : Database) : Database * option string :=
  if String.eqb (ID m) "" then (db, Some ErrMissingID)
  else match migrationRan db (ID m) with
       | Error err | Panic err => (db, Some err)
       | Ok true => (db, None)
       | Ok false =>
           match Migrate_ m db with
           | (db, Some err) => (db, Some err)
           | (db, None) => (insertMigration db (ID m), None)
           end
       end.

(** The loop of [migrate]: every migration in the order of the slice, up
    to the one called [migrationID]. *)
Fixpoint runMigrations (migrations : list Migration) (migrationID : string)
    (db : Database) : Database * option string :=
  match migrations with
  | [] => (db, None)
  | m :: rest =>
      match runMigration m db with
      | (db, Some err) => (db, Some err)
      | (db, None) =>
          if negb (String.eqb migrationID "") && String.eqb (ID m) migrationID
          then (db, None)
          else runMigrations rest migrationID db
      end
  end.

Definition migrate (migrations : list Migration) (migrationID : string)
    (db : Database) : Database * option string :=
  match migrations with
  | [] => (db, Some ErrNoMigrationDefined)
  | _ =>
      match checkReservedID migrations with
      | Some err => (db, Some err)
      | None =>
          match checkDuplicatedID ∅ migrations with
          | Some err => (db, Some err)
          | None =>
              match checkIDExist migrations migrationID with
              | Some err => (db, Some err)
              | None =>
                  runMigrations migrations migrationID
                    (createMigrationTableIfNotExists db)
              end
          end
      end
  end.

(** [Migrate()]: all the migrations that did not run yet. *)
Definition Migrate (migrations : list Migration) (db : Database)
  : Database * option string :=
  match last migrations with
  | None => (db, Some ErrNoMigrationDefined)
  | Some target => migrate migrations (ID target) db
  end.

(** The last migration of the slice that has a row in the table. *)
Fixpoint getLastRunMigration (reversed : list Migration) (db : Database)
  : result Migration :=
  match reversed with
  | [] => Error ErrNoRunMigration
  | m :: rest =>
      match migrationRan db (ID m) with
      | Error err | Panic err => Error err
      | Ok true => Ok m
      | Ok false => getLastRunMigration rest db
      end
  end.

Definition rollbackMigration (m : Migration) (db : Database) : Database * option string :=
  match Rollback_ m db with
  | (db, Some err) => (db, Some err)
  | (db, None) => (deleteMigration db (ID m), None)
  end.

(** [RollbackLast()] *)
Definition RollbackLast (migrations : list Migration) (db : Database)
  : Database * option string :=
  match migrations with
  | [] => (db, Some ErrNoMigrationDefined)
  | _ =>
      match getLastRunMigration (rev migrations) db with
      | Error err | Panic err => (db, Some err)
      | Ok lastRunMigration => rollbackMigration lastRunMigration db
      end
  end.

End gormigrate.
End gormigrate.

(** ** Running and rolling back *)

(** One batch in a transaction of its own, as both closures of
    [setupMigration] run it: [Begin], [Exec], then [Commit], with the
    deferred [Rollback] on the way out. *)
Definition in_transaction `{Orm} (sql : string) (db : Database)
  : Database * option string :=
  let '(db, tx) := gorm.BeginTx db in
  let '(db, tx, err) := gorm.ExecTx sql db tx in
  match err with
  | Some e => (gorm.RollbackTx db tx, Some e)
  | None =>
      let '(db, tx, err) := gorm.CommitTx db tx in
      (gorm.RollbackTx db tx, err)
  end.

(** [setupMigration(migration)] *)
Definition setupMigration `{Orm} (migration : migration) : gormigrate.Migration :=
  gormigrate.mkMigration (id migration)
    (in_transaction (migrationSQL migration))
    (in_transaction (rollbackSQL migration)).

(** [for _, v := range m] over a Go map visits every key once, in an order
    the language leaves open and the runtime varies from one loop to the
    next; [order] is the order of one such loop. *)
Definition range_map {V} (order : list string) (m : gmap string V) : list V :=
  omap (fun k => m !! k) order.

Definition range_order {V} (order : list string) (m : gmap string V) : Prop :=
  NoDup order /\ list_to_set order = dom m.

(** [setupManager(dbConfig)]: the migrations handed to [gormigrate.New]. *)
Definition setupManager `{Orm} (order : list string) (w : World) (dbConfig : DBConfig)
  : World * result (list gormigrate.Migration) :=
  match newDatabase dbConfig with
  | Some _ => (w, Error "connection to database failed, can not run migrations")
  | None =>
      let '(out, r) := getMigrations (fs w) (MigrationsFolderPath dbConfig) in
      let w := mkWorld (fs w) (db w) (stdout w ++ out) in
      match r with
      | Error err => (w, Error err)
      | Panic msg => (w, Panic msg)
      | Ok migrations =>
          if (size migrations <=? 0)%nat then (w, Error "no migrations to run")
          else (w, Ok (map setupMigration (range_map order migrations)))
      end
  end.

(** [RunMigrations(dbConfig)] *)
Definition RunMigrations `{Orm} (order : list string) (w : World) (dbConfig : DBConfig)
  : World * result unit :=
  match setupManager order w dbConfig with
  | (w, Error err) => (w, Error err)
  | (w, Panic msg) => (w, Panic msg)
  | (w, Ok manager) =>
      match gormigrate.Migrate manager (db w) with
      | (db', Some err) => (mkWorld (fs w) db' (stdout w), Error err)
      | (db', None) =>
          (println (mkWorld (fs w) db' (stdout w)) "Migrations successful", Ok tt)
      end
  end.

(** [RollbackMigration(dbConfig)] *)
Definition RollbackMigration `{Orm} (order : list string) (w : World) (dbConfig : DBConfig)
  : World * result unit :=
  match setupManager order w dbConfig with
  | (w, Error err) => (w, Error err)
  | (w, Panic msg) => (w, Panic msg)
  | (w, Ok manager) =>
      match gormigrate.RollbackLast manager (db w) with
      | (db', Some err) => (mkWorld (fs w) db' (stdout w), Error err)
      | (db', None) =>
          (println (mkWorld (fs w) db' (stdout w)) "Rollback successful", Ok tt)
      end
  end.

(** ** An in-memory database

    The content is the list of the batches committed so far; a batch that
    starts with [BAD] is refused; the dry run prints, for each model (a
    table name), the query that looks the table up and the statement that
    creates it. *)

Module Mem.

Definition exec (sql : string) (s : list string) : string + list string :=
  if strings.HasPrefix sql "BAD" then inl ("syntax error near " +:+ sql)
  else inr (s ++ [sql]).

Definition dry_run (s : list string) (models : list string) : string :=
  String.concat ""
    (map (fun t => "  select count(*) from sqlite_master where name = '" +:+ t +:+ "'"
                   +:+ strings.nl +:+ "CREATE TABLE " +:+ t +:+ " (id integer)"
                   +:+ strings.nl) models).

#[export] Instance orm : Orm := {|
  Model := string;
  Schema := list string;
  Exec := exec;
  CommitError := fun _ => None;
  AutoMigrate := dry_run;
  AutoMigrate_nil := fun _ => eq_refl
|}.

Definition database (content : list string) (rows : option (list string))
    (statements : list stmt) : Database :=
  @mkDatabase orm content rows statements.

Definition empty_db : Database := database [] None [].

Definition world (files : gmap string node) : World := mkWorld files empty_db [].

(** A world whose only folder is the empty folder [m]. *)
Definition fresh : World := world {[ "m" := Dir [] ]}.

(** A world without any folder. *)
Definition bare : World := world ∅.

Definition config_for (d : gorm.Dialector) (models : list string) (path : string)
  : DBConfig := @mkDBConfig orm d models path.

Definition config (path : string) : DBConfig := config_for gorm.Reachable [] path.

End Mem.

(** ** The filter of the diff, as the specification words it *)

(** A line begins with SELECT, whatever the case of its letters, after the
    white space in front of it. *)
Fixpoint prefix_ci (s upper_prefix : string) {struct upper_prefix} : bool :=
  match upper_prefix, s with
  | EmptyString, _ => true
  | String p ps, String c cs => Ascii.eqb (strings.upper c) p && prefix_ci cs ps
  | String _ _, EmptyString => false
  end.

Definition is_select (line : string) : bool :=
  prefix_ci (strings.TrimLeft line) "SELECT".

(** The lines that survive, each with a line feed after it. *)
Definition surviving (lines : list string) : list string :=
  List.filter (fun l => negb (is_select l)) lines.

Definition terminated (lines : list string) : string :=
  String.concat "" (map (fun l => l +:+ strings.nl) lines).

(** ** Notions the properties are stated with *)

(** The files of a unit and the first line of each. *)
Definition upFile (folderPath id name : string) : string :=
  folderPath +:+ "/" +:+ id +:+ "_" +:+ name +:+ "_up.sql".

Definition downFile (folderPath id name : string) : string :=
  folderPath +:+ "/" +:+ id +:+ "_" +:+ name +:+ "_down.sql".

Definition header : string := "-- Write your SQL command here" +:+ strings.nl.

(** What [CreateMigration] does once the diff is known: [notice] is what
    it has printed so far and [sql] the body of the apply file. *)
Definition create_with `{Orm} (w : World) (now : Z) (path migrationName : string)
    (notice : list string) (sql : string) : World * option string :=
  let '(fs', err) :=
    generateFiles (fs w) (mkMigration (pretty now) migrationName sql "") path in
  match err with
  | Some e => (mkWorld fs' (db w) (stdout w ++ notice), Some e)
  | None =>
      (mkWorld fs' (db w)
         ((stdout w ++ notice)
            ++ ["Migration '" +:+ migrationName +:+ "' created successfully."
                +:+ strings.nl]), None)
  end.

(** The notice [CreateMigration] prints when there is no diff to write. *)
Definition soft_notice `{Orm} (cfg : DBConfig) : string :=
  match newDatabase cfg with
  | Some _ => "Database connection failed skipping auto migration" +:+ strings.nl
  | None => "No auto changes found." +:+ strings.nl
  end.

(** White space in a word, for the prefix that [getChangesAuto] tests. *)
Fixpoint no_space (p : string) : bool :=
  match p with
  | EmptyString => true
  | String c r => negb (strings.isSpace c) && no_space r
  end.

(** What a folder entry is to the pairing step, whatever the map holds. *)
Inductive entry_kind : Type :=
| Ignored
| Unreadable (line : string)
| Malformed
| Artifact (key id : string) (up : bool) (content : string).

(** The unit stored for an artifact: the one found under its key, with the
    id and the side of the artifact overwritten. *)
Definition store (m : gmap string migration) (key id : string) (up : bool)
    (content : string) : gmap string migration :=
  let found := set_id (default zero_migration (m !! key)) id in
  <[key := if up then set_migrationSQL found content
           else set_rollbackSQL found content]> m.

Definition merge (m : gmap string migration) (e : entry_kind)
  : result (gmap string migration) :=
  match e with
  | Ignored | Unreadable _ => Ok m
  | Malformed => Panic slice_panic
  | Artifact key id up content => Ok (store m key id up content)
  end.

Definition artifact_tag (e : entry_kind) : option (string * bool) :=
  match e with
  | Artifact key _ up _ => Some (key, up)
  | _ => None
  end.

(** The entries of the current revision. *)
Definition classify (fs : gmap string node) (path : string) (file : DirEntry)
  : entry_kind :=
  if IsDir file then Ignored
  else match os.ReadFile fs (path +:+ "/" +:+ Name file) with
       | Error err | Panic err =>
           Unreadable ("Error reading file " +:+ Name file +:+ ": " +:+ err +:+ strings.nl)
       | Ok content =>
           let splitName := strings.Split (Name file) "_" in
           match slice_to 2 splitName with
           | None => Malformed
           | Some firstTwo =>
               if regexp.MatchString migrationsFilter (Name file) then
                 Artifact (strings.Join firstTwo "_") (hd EmptyString splitName) true content
               else if regexp.MatchString rollbackFilter (Name file) then
                 Artifact (strings.Join firstTwo "_") (hd EmptyString splitName) false content
               else Ignored
           end
       end.

(** The entries of the revision that keys by id. *)
Definition classify_by_id (fs : gmap string node) (path : string) (file : DirEntry)
  : entry_kind :=
  if IsDir file then Ignored
  else match os.ReadFile fs (path +:+ "/" +:+ Name file) with
       | Error err | Panic err =>
           Unreadable ("Error reading file " +:+ Name file +:+ ": " +:+ err +:+ strings.nl)
       | Ok content =>
           let migrationID := hd EmptyString (strings.Split (Name file) "_") in
           if regexp.MatchString migrationsFilter (Name file) then
             Artifact migrationID migrationID true content
           else if regexp.MatchString rollbackFilter (Name file) then
             Artifact migrationID migrationID false content
           else Ignored
       end.

Definition pair_step (kind : DirEntry -> entry_kind)
    (r : result (gmap string migration)) (file : DirEntry)
  : result (gmap string migration) :=
  match r with
  | Ok m => merge m (kind file)
  | _ => r
  end.

(** No two artifacts of a listing have the same key and the same side. *)
Definition no_clash (kind : DirEntry -> entry_kind) (files : list DirEntry) : Prop :=
  NoDup (omap (fun f => artifact_tag (kind f)) files).

(** The keys that have both an apply and a rollback artifact. *)
Definition complete_keys (kind : DirEntry -> entry_kind) (files : list DirEntry)
  : list string :=
  let tags := omap (fun f => artifact_tag (kind f)) files in
  omap (fun t : string * bool =>
          if snd t && bool_decide ((fst t, false) ∈ tags) then Some (fst t) else None)
       tags.

(** The database after a unit whose batch failed, and after one that went
    through. *)
Definition rolled_back `{Orm} (sql : string) (db : Database) : Database :=
  mkDatabase (schema db) (ledger db) (journal db ++ [Begin; Run sql; Rollback]).

Definition committed `{Orm} (id sql : string) (s : Schema) (db : Database) : Database :=
  mkDatabase s (option_map (fun rows => rows ++ [id]) (ledger db))
    (journal db ++ [Begin; Run sql; Commit]).

(** An id the engine accepts: not empty and not the one it reserves. *)
Definition valid_id (i : string) : Prop :=
  i <> "" /\ i <> gormigrate.initSchemaMigrationID.

Definition digit_led (i : string) : Prop :=
  exists c r, i = String c r /\ strings.in_range 48 57 c = true.

(** An expression that matches nothing. *)
Fixpoint is_void (r : regexp.re) : bool :=
  match r with
  | regexp.Void => true
  | regexp.Seq r1 r2 => is_void r1 || is_void r2
  | regexp.Alt r1 r2 => is_void r1 && is_void r2
  | _ => false
  end.

(** ** Folders and units to run the handler on *)

(** A folder with the two files of one unit. *)
Definition pair_folder : gmap string node :=
  folder "m" [("1_a_down.sql", "DROP TABLE a"); ("1_a_up.sql", "CREATE TABLE a")].

Definition pair_listing : list DirEntry :=
  [mkDirEntry "1_a_down.sql" false; mkDirEntry "1_a_up.sql" false].

(** The same folder with a file that is no migration. *)
Definition readme_folder : gmap string node :=
  folder "m" [("1_a_down.sql", "DROP TABLE a"); ("1_a_up.sql", "CREATE TABLE a");
              ("README.md", "How to write a migration")].

(** Three units, the second with a batch the database refuses. *)
Definition three_units : list migration :=
  [mkMigration "1" "" "CREATE TABLE a" "DROP TABLE a";
   mkMigration "2" "" "BAD TABLE b" "DROP TABLE b";
   mkMigration "3" "" "CREATE TABLE c" "DROP TABLE c"].

(** Three units with their two files each. *)
Definition three_folder : gmap string node :=
  folder "m" [("1_a_down.sql", "DROP TABLE a"); ("1_a_up.sql", "CREATE TABLE a");
              ("2_b_down.sql", "DROP TABLE b"); ("2_b_up.sql", "CREATE TABLE b");
              ("3_c_down.sql", "DROP TABLE c"); ("3_c_up.sql", "CREATE TABLE c")].

Definition three_map : gmap string migration :=
  {[ "1_a" := mkMigration "1" "" "CREATE TABLE a" "DROP TABLE a";
     "2_b" := mkMigration "2" "" "CREATE TABLE b" "DROP TABLE b";
     "3_c" := mkMigration "3" "" "CREATE TABLE c" "DROP TABLE c" ]}.

(** The three units applied already. *)
Definition three_applied : World :=
  mkWorld three_folder
    (Mem.database ["CREATE TABLE a"; "CREATE TABLE b"; "CREATE TABLE c"]
       (Some ["1"; "2"; "3"]) []) [].

(** Two migrations created within the same second, as in the test of
    [RunMigrations] on a duplicated id. *)
Definition twin_folder : gmap string node :=
  folder "m" [("1700000000_test0_down.sql", header); ("1700000000_test0_up.sql", header);
              ("1700000000_test1_down.sql", header); ("1700000000_test1_up.sql", header)].

Definition twin_map : gmap string migration :=
  {[ "1700000000_test0" := mkMigration "1700000000" "" header header;
     "1700000000_test1" := mkMigration "1700000000" "" header header ]}.

(** An apply file without its rollback file. *)
Definition lone_folder : gmap string node :=
  folder "m" [("1_a_up.sql", "CREATE TABLE a")].

(** What discovery makes of [pair_folder]. *)
Definition pair_map : gmap string migration :=
  {[ "1_a" := mkMigration "1" "" "CREATE TABLE a" "DROP TABLE a" ]}.

(** The three units with the table of applied ids there and empty. *)
Definition three_pending : World :=
  mkWorld three_folder (Mem.database [] (Some []) []) [].

(** One unit, applied, with a rollback batch the database refuses. *)
Definition stuck_folder : gmap string node :=
  folder "m" [("1_a_down.sql", "BAD TABLE a"); ("1_a_up.sql", "CREATE TABLE a")].

Definition stuck_applied : World :=
  mkWorld stuck_folder (Mem.database ["CREATE TABLE a"] (Some ["1"]) []) [].

(** A folder in which the name of a rollback file is taken by a folder. *)
Definition blocked_folder : gmap string node :=
  {[ "m" := Dir [mkDirEntry "1_a_down.sql" true]; "m/1_a_down.sql" := Dir [] ]}.

(** [pair_folder] with an entry in its listing that cannot be read. *)
Definition dangling_folder : gmap string node :=
  <["m" := Dir (mkDirEntry "9_x_up.sql" false :: pair_listing)]> pair_folder.

(** ** Notions for the further properties *)

(** One side of a unit: its apply batch or its rollback batch. *)
Definition side (u : migration) (up : bool) : string :=
  if up then migrationSQL u else rollbackSQL u.

(** The content of the last artifact of a listing with the given key and
    side, if there is one. *)
Fixpoint last_content (kind : DirEntry -> entry_kind) (files : list DirEntry)
    (key : string) (up : bool) : option string :=
  match files with
  | [] => None
  | f :: rest =>
      match last_content kind rest key up with
      | Some c => Some c
      | None =>
          match kind f with
          | Artifact k _ u c =>
              if String.eqb k key && Bool.eqb u up then Some c else None
          | _ => None
          end
      end
  end.

(** The line of warning for an entry that is a file and cannot be read. *)
Definition unreadable_warning (fs : gmap string node) (path : string) (file : DirEntry)
  : option string :=
  if IsDir file then None
  else match os.ReadFile fs (path +:+ "/" +:+ Name file) with
       | Error err | Panic err =>
           Some ("Error reading file " +:+ Name file +:+ ": " +:+ err +:+ strings.nl)
       | Ok _ => None
       end.

(** Every byte of a text passes a test. *)
Fixpoint all_bytes (P : ascii -> bool) (s : string) : bool :=
  match s with
  | EmptyString => true
  | String c r => P c && all_bytes P r
  end.

Definition is_line_feed (c : ascii) : bool := (strings.byte c =? 10)%nat.


Definition is_digit (c : ascii) : bool := strings.in_range 48 57 c.

(** A text without line feed. *)
Definition one_line (s : string) : bool := all_bytes (fun c => negb (is_line_feed c)) s.


(** The texts an expression matches. *)
Inductive lang : regexp.re -> string -> Prop :=
| lang_eps : lang regexp.Eps ""
| lang_chr (p : ascii -> bool) (c : ascii) :
    p c = true -> lang (regexp.Chr p) (String c "")
| lang_seq (r1 r2 : regexp.re) (s1 s2 : string) :
    lang r1 s1 -> lang r2 s2 -> lang (regexp.Seq r1 r2) (s1 +:+ s2)
| lang_alt_l (r1 r2 : regexp.re) (s : string) :
    lang r1 s -> lang (regexp.Alt r1 r2) s
| lang_alt_r (r1 r2 : regexp.re) (s : string) :
    lang r2 s -> lang (regexp.Alt r1 r2) s
| lang_star_nil (r : regexp.re) : lang (regexp.Star r) ""
| lang_star_cons (r : regexp.re) (s1 s2 : string) :
    lang r s1 -> lang (regexp.Star r) s2 -> lang (regexp.Star r) (s1 +:+ s2).

(** A text backwards. *)
Fixpoint srev (s : string) : string :=
  match s with
  | EmptyString => EmptyString
  | String c r => srev r +:+ String c EmptyString
  end.

(** A byte of a UTF-8 sequence of more than one byte. *)
Definition is_high (c : ascii) : bool := (128 <=? strings.byte c)%nat.

(** * Properties *)

(** ** The embedding on concrete inputs *)

Example filter_up_1 : regexp.MatchString migrationsFilter "1700000000_users_up.sql" = true.
Proof. vm_compute. reflexivity. Qed.
Example filter_up_2 : regexp.MatchString migrationsFilter "1700000000_users_down.sql" = false.
Proof. vm_compute. reflexivity. Qed.
Example filter_up_3 : regexp.MatchString migrationsFilter "x1_users_up.sql" = false.
Proof. vm_compute. reflexivity. Qed.
Example filter_down_1 : regexp.MatchString rollbackFilter "17_a_b_downXsql" = true.
Proof. vm_compute. reflexivity. Qed.
Example split_1 : strings.Split "17_a_b_up.sql" "_" = ["17"; "a"; "b"; "up.sql"].
Proof. vm_compute. reflexivity. Qed.
Example split_2 : strings.Split "README.md" "_" = ["README.md"].
Proof. vm_compute. reflexivity. Qed.
Example trim_1 : strings.TrimSpace "  select 1  " = "select 1".
Proof. vm_compute. reflexivity. Qed.

Example getMigrations_pair :
  getMigrations (folder "m" [("1_a_down.sql", "D"); ("1_a_up.sql", "U")]) "m"
  = ([], Ok {[ "1_a" := mkMigration "1" "" "U" "D" ]}).
Proof. vm_compute. reflexivity. Qed.

Example getMigrations_readme :
  getMigrations (folder "m" [("1_a_up.sql", "U"); ("README.md", "x")]) "m"
  = ([], Panic slice_panic).
Proof. vm_compute. reflexivity. Qed.

Example getMigrations_byid_readme :
  ById.getMigrations (folder "m" [("1_a_up.sql", "U"); ("README.md", "x")]) "m"
  = ([], Ok {[ "1" := mkMigration "1" "" "U" "" ]}).
Proof. vm_compute. reflexivity. Qed.

(** ** Strings *)

Lemma append_cons (x : ascii) (a b : string) : String x a +:+ b = String x (a +:+ b).
Proof. reflexivity. Qed.

Lemma append_nil_l (a : string) : "" +:+ a = a.
Proof. reflexivity. Qed.

Lemma append_assoc (a b c : string) : (a +:+ b) +:+ c = a +:+ (b +:+ c).
Proof.
  induction a as [|x a IH]; [reflexivity|].
  rewrite !append_cons. f_equal. exact IH.
Qed.

Lemma append_nil_r (a : string) : a +:+ "" = a.
Proof.
  induction a as [|x a IH]; [reflexivity|].
  rewrite append_cons. f_equal. exact IH.
Qed.

Lemma upper_space (c : ascii) : strings.isSpace c = true -> strings.upper c = c.
Proof.
  unfold strings.isSpace, strings.upper, strings.in_range.
  intros Hs.
  destruct ((97 <=? strings.byte c)%nat && (strings.byte c <=? 122)%nat) eqn:E;
    [|reflexivity].
  apply andb_true_iff in E as [E1 E2].
  apply Nat.leb_le in E1. apply Nat.leb_le in E2.
  apply orb_true_iff in Hs as [Hs|Hs].
  - apply andb_true_iff in Hs as [_ Hs]. apply Nat.leb_le in Hs. lia.
  - apply Nat.eqb_eq in Hs. lia.
Qed.

Lemma prefix_ci_upper (s p : string) :
  strings.HasPrefix (strings.ToUpper s) p = prefix_ci s p.
Proof.
  revert s. induction p as [|q p IH]; intros [|c s]; simpl; try reflexivity.
  now rewrite IH.
Qed.

(** Trimming at the end does not change whether a text begins with a word
    that has no white space in it. *)
Lemma prefix_ci_TrimRight (p t : string) :
  no_space p = true -> prefix_ci (strings.TrimRight t) p = prefix_ci t p.
Proof.
  revert p. induction t as [|c r IH]; intros p Hp; [reflexivity|].
  destruct p as [|q ps]; [reflexivity|].
  simpl in Hp. apply andb_true_iff in Hp as [Hq Hps].
  apply negb_true_iff in Hq.
  specialize (IH ps Hps). simpl.
  destruct (strings.TrimRight r) as [|c' t'] eqn:E.
  - destruct (strings.isSpace c) eqn:Ec.
    + simpl. rewrite (upper_space c Ec).
      destruct (Ascii.eqb_spec c q) as [->|_]; [congruence | reflexivity].
    + simpl. now rewrite <- IH.
  - simpl. simpl in IH. now rewrite <- IH.
Qed.

Lemma keep_line_is_select (lines text : string) :
  keep_line lines text =
  if is_select text then lines else lines +:+ text +:+ strings.nl.
Proof.
  unfold keep_line, is_select, strings.TrimSpace.
  rewrite prefix_ci_upper, prefix_ci_TrimRight by reflexivity.
  now destruct (prefix_ci _ _).
Qed.

Lemma fold_keep_line (ls : list string) (acc : string) :
  fold_left keep_line ls acc = acc +:+ terminated (surviving ls).
Proof.
  revert acc. induction ls as [|l ls IH]; intros acc; simpl.
  - unfold terminated. simpl. now rewrite append_nil_r.
  - rewrite IH, keep_line_is_select. unfold surviving. simpl.
    destruct (is_select l); simpl; [reflexivity|].
    unfold terminated. simpl.
    destruct (map _ (List.filter _ ls)) eqn:E; simpl.
    + now rewrite !append_assoc, append_nil_r.
    + now rewrite !append_assoc.
Qed.

(** C7: [getChangesAuto] returns the lines of the captured dry-run output
    that do not begin with SELECT (in any case, after leading white space),
    in their order and each followed by a line feed; it returns the empty
    string when no line survives. *)
Theorem getChangesAuto_filters_select `{Orm} (db : Database) (models : list Model) :
  let lines := bufio.ScanLines (AutoMigrate (schema db) models) in
  getChangesAuto db models = terminated (surviving lines)
  /\ (surviving lines = [] <-> getChangesAuto db models = "").
Proof.
  intros lines. unfold getChangesAuto. fold lines.
  rewrite fold_keep_line. simpl. split; [reflexivity|].
  split.
  - intros ->. reflexivity.
  - destruct (surviving lines) as [|l ls]; [reflexivity|].
    unfold terminated. simpl. destruct l; destruct (map _ ls); discriminate.
Qed.

(** ** Creating a migration *)

Lemma upFile_downFile (folderPath id name : string) :
  upFile folderPath id name <> downFile folderPath id name.
Proof.
  unfold upFile, downFile. intros E.
  do 5 apply String.app_inj in E. discriminate E.
Qed.

Lemma generateFiles_missing (files : gmap string node) (m : migration) (path : string) :
  files !! path = None ->
  generateFiles files m path = (files, Some ("could not find dir " +:+ path)).
Proof. intros E. unfold generateFiles, os.ReadDir. now rewrite E. Qed.

(** When [generateFiles] returns no error both files hold the template
    with their body. *)
Lemma generateFiles_written (files files' : gmap string node) (m : migration)
    (path : string) :
  generateFiles files m path = (files', None) ->
  os.ReadFile files' (upFile path (id m) (name m)) = Ok (header +:+ migrationSQL m)
  /\ os.ReadFile files' (downFile path (id m) (name m)) = Ok (header +:+ rollbackSQL m).
Proof.
  unfold generateFiles. fold (upFile path (id m) (name m)).
  fold (downFile path (id m) (name m)).
  destruct (os.ReadDir files path); try discriminate.
  destruct (os.Create files _) as [fs1| |]; try discriminate.
  destruct (os.Create fs1 _) as [fs2| |]; try discriminate.
  intros [= <-]. unfold os.ReadFile, os.Write, migrationTemplate. split.
  - rewrite lookup_insert_ne by (apply not_eq_sym, upFile_downFile).
    rewrite lookup_insert_eq. unfold header. now rewrite append_assoc.
  - rewrite lookup_insert_eq. unfold header. now rewrite append_assoc.
Qed.

Lemma CreateMigration_unfold `{Orm} (w : World) (now : Z) (cfg : DBConfig)
    (migrationName : string) :
  CreateMigration w now cfg migrationName =
  match newDatabase cfg with
  | Some _ =>
      create_with w now (MigrationsFolderPath cfg) migrationName
        ["Database connection failed skipping auto migration" +:+ strings.nl] ""
  | None =>
      let sql := getChangesAuto (db w) (Models cfg) in
      create_with w now (MigrationsFolderPath cfg) migrationName
        (if String.eqb sql "" then ["No auto changes found." +:+ strings.nl] else [])
        sql
  end.
Proof.
  unfold CreateMigration, create_with, println, print, set_migrationSQL.
  destruct (newDatabase cfg); simpl.
  - destruct (generateFiles _ _ _) as [fs' [e|]]; reflexivity.
  - destruct (String.eqb _ ""); simpl;
      destruct (generateFiles _ _ _) as [fs' [e|]]; simpl;
      rewrite ?app_nil_r; reflexivity.
Qed.

(** C9: when the migrations folder does not exist, [CreateMigration]
    returns the error that names this very path, and the file system is as
    it was: no file is written and the folder is not created. *)
Theorem CreateMigration_missing_folder `{Orm} (w : World) (now : Z) (cfg : DBConfig)
    (migrationName : string) :
  fs w !! MigrationsFolderPath cfg = None ->
  snd (CreateMigration w now cfg migrationName)
    = Some ("could not find dir " +:+ MigrationsFolderPath cfg)
  /\ fs (fst (CreateMigration w now cfg migrationName)) = fs w.
Proof.
  intros Hmissing. rewrite CreateMigration_unfold. unfold create_with.
  destruct (newDatabase cfg); cbv zeta;
    rewrite (generateFiles_missing _ _ _ Hmissing); split; reflexivity.
Qed.

Lemma CreateMigration_missing_folder_witness :
  let cfg := Mem.config "./missing" in
  snd (CreateMigration (Mem.bare) 1700000000 cfg "users")
    = Some "could not find dir ./missing"
  /\ fs (fst (CreateMigration (Mem.bare) 1700000000 cfg "users")) = ∅.
Proof.
  exact (CreateMigration_missing_folder (Mem.bare) 1700000000
           (Mem.config "./missing") "users" (lookup_empty _)).
Defined.

(** C10: whenever [CreateMigration] returns no error, the [_down.sql] file
    it has written holds the header line with its line feed and nothing
    else, whatever the models, the diff and the connection. *)
Theorem CreateMigration_rollback_empty `{Orm} (w : World) (now : Z) (cfg : DBConfig)
    (migrationName : string) :
  snd (CreateMigration w now cfg migrationName) = None ->
  os.ReadFile (fs (fst (CreateMigration w now cfg migrationName)))
    (downFile (MigrationsFolderPath cfg) (pretty now) migrationName)
  = Ok ("-- Write your SQL command here" +:+ strings.nl).
Proof.
  rewrite CreateMigration_unfold.
  assert (Hgen : forall notice sql,
    snd (create_with w now (MigrationsFolderPath cfg) migrationName notice sql) = None ->
    os.ReadFile
      (fs (fst (create_with w now (MigrationsFolderPath cfg) migrationName notice sql)))
      (downFile (MigrationsFolderPath cfg) (pretty now) migrationName)
    = Ok ("-- Write your SQL command here" +:+ strings.nl)).
  { intros notice sql. unfold create_with.
    destruct (generateFiles _ _ _) as [fs' [e|]] eqn:G; [discriminate|].
    intros _. apply generateFiles_written in G as [_ G]. simpl in G |- *.
    rewrite G. unfold header. now rewrite append_nil_r. }
  destruct (newDatabase cfg); apply Hgen.
Qed.

Lemma CreateMigration_rollback_empty_witness :
  let w := Mem.fresh in
  let cfg := Mem.config_for gorm.Reachable ["users"] "m" in
  snd (CreateMigration w 1700000000 cfg "add") = None
  /\ os.ReadFile (fs (fst (CreateMigration w 1700000000 cfg "add")))
       "m/1700000000_add_down.sql"
     = Ok ("-- Write your SQL command here" +:+ strings.nl).
Proof.
  split; [vm_compute; reflexivity|].
  exact (CreateMigration_rollback_empty (Mem.fresh) 1700000000
           (Mem.config_for gorm.Reachable ["users"] "m") "add"
           ltac:(vm_compute; reflexivity)).
Defined.

Example CreateMigration_with_model :
  os.ReadFile
    (fs (fst (CreateMigration (Mem.fresh) 1700000000
                (Mem.config_for gorm.Reachable ["users"] "m") "add")))
    "m/1700000000_add_up.sql"
  = Ok (header +:+ "CREATE TABLE users (id integer)" +:+ strings.nl).
Proof. vm_compute. reflexivity. Qed.

Lemma getChangesAuto_no_model `{Orm} (db : Database) : getChangesAuto db [] = "".
Proof. unfold getChangesAuto. now rewrite AutoMigrate_nil. Qed.

(** C8, as stated, fails where the folder is missing: with no model and a
    database that answers, and also with a database that does not answer,
    [CreateMigration] returns an error. *)
Lemma CreateMigration_soft_failure_counterexample :
  Models (Mem.config "./missing") = []
  /\ snd (CreateMigration (Mem.bare) 1700000000 (Mem.config "./missing") "users")
     = Some "could not find dir ./missing"
  /\ snd (CreateMigration (Mem.bare) 1700000000
            (Mem.config_for (gorm.Unreachable "dial tcp: connection refused") []
               "./missing")
            "users")
     = Some "could not find dir ./missing".
Proof. repeat split; vm_compute; reflexivity. Qed.

(** C8, amended: when there is no model, or the database cannot be
    reached, and the folder exists and both files can be created, then
    [CreateMigration] returns no error, the apply file holds the header
    alone, and the caller learns of it by the printed notice only; the
    database is not touched.  When the database cannot be reached,
    [RunMigrations] and [RollbackMigration] return the error
    "connection to database failed, can not run migrations" and change
    nothing. *)
Theorem CreateMigration_soft_failure `{Orm} (w : World) (now : Z) (cfg : DBConfig)
    (migrationName : string) :
  let path := MigrationsFolderPath cfg in
  let r := CreateMigration w now cfg migrationName in
  (Models cfg = [] \/ newDatabase cfg <> None ->
   forall entries fs1 fs2,
   os.ReadDir (fs w) path = Ok entries ->
   os.Create (fs w) (upFile path (pretty now) migrationName) = Ok fs1 ->
   os.Create fs1 (downFile path (pretty now) migrationName) = Ok fs2 ->
   snd r = None
   /\ os.ReadFile (fs (fst r)) (upFile path (pretty now) migrationName)
      = Ok ("-- Write your SQL command here" +:+ strings.nl)
   /\ stdout (fst r)
      = stdout w ++ [soft_notice cfg;
                     "Migration '" +:+ migrationName +:+ "' created successfully."
                     +:+ strings.nl]
   /\ db (fst r) = db w)
  /\ (newDatabase cfg <> None ->
      forall order,
      RunMigrations order w cfg
        = (w, Error "connection to database failed, can not run migrations")
      /\ RollbackMigration order w cfg
        = (w, Error "connection to database failed, can not run migrations")).
Proof.
  intros path r. split.
  - intros Hsoft entries fs1 fs2 Hdir Hup Hdown.
    assert (Hr : r = create_with w now path migrationName [soft_notice cfg] "").
    { subst r. rewrite CreateMigration_unfold. unfold soft_notice. fold path.
      destruct (newDatabase cfg) as [e|] eqn:Hopen; [reflexivity|].
      destruct Hsoft as [Hnil|Hne]; [|congruence].
      rewrite Hnil, getChangesAuto_no_model. reflexivity. }
    rewrite Hr. unfold create_with.
    destruct (generateFiles _ _ _) as [fs' err] eqn:G.
    assert (Herr : err = None).
    { revert G. unfold generateFiles. rewrite Hdir. simpl id. simpl name.
      fold (upFile path (pretty now) migrationName).
      fold (downFile path (pretty now) migrationName).
      rewrite Hup, Hdown. now intros [= _ <-]. }
    subst err. apply generateFiles_written in G as [G _]. simpl in G |- *.
    rewrite G. unfold header. rewrite append_nil_r, <- app_assoc.
    split; [|split; [|split]]; reflexivity.
  - intros Hne order. unfold RunMigrations, RollbackMigration, setupManager.
    destruct (newDatabase cfg); [split; reflexivity | congruence].
Qed.

Lemma CreateMigration_soft_failure_witness :
  let w := Mem.fresh in
  let cfg := Mem.config_for (gorm.Unreachable "dial tcp: connection refused") ["users"] "m" in
  snd (CreateMigration w 1700000000 cfg "add") = None
  /\ os.ReadFile (fs (fst (CreateMigration w 1700000000 cfg "add")))
       "m/1700000000_add_up.sql"
     = Ok ("-- Write your SQL command here" +:+ strings.nl)
  /\ RunMigrations [] w cfg
     = (w, Error "connection to database failed, can not run migrations").
Proof.
  pose proof (CreateMigration_soft_failure (Mem.fresh) 1700000000
                (Mem.config_for (gorm.Unreachable "dial tcp: connection refused") ["users"] "m")
                "add") as [Hcreate Hrun].
  cbv zeta in Hcreate, Hrun.
  destruct (Hcreate ltac:(right; discriminate) [] _ _
              ltac:(vm_compute; reflexivity) ltac:(vm_compute; reflexivity)
              ltac:(vm_compute; reflexivity)) as (H1 & H2 & _).
  destruct (Hrun ltac:(discriminate) []) as [H3 _].
  split; [exact H1 | split; [exact H2 | exact H3]].
Defined.

(** ** Pairing *)

Lemma visit_file_classify fs path m file :
  visit_file fs path m file =
  match classify fs path file with
  | Ignored => Skip
  | Unreadable line => Warn line
  | Malformed => Crash slice_panic
  | Artifact key id up content =>
      Store key (let found := set_id (default zero_migration (m !! key)) id in
                 if up then set_migrationSQL found content
                 else set_rollbackSQL found content)
  end.
Proof.
  unfold visit_file, classify.
  destruct (IsDir file); [reflexivity|].
  destruct (os.ReadFile _ _); try reflexivity.
  destruct (slice_to 2 _); [|reflexivity].
  destruct (regexp.MatchString migrationsFilter _); [reflexivity|].
  destruct (regexp.MatchString rollbackFilter _); reflexivity.
Qed.

Lemma visit_file_classify_by_id fs path m file :
  ById.visit_file fs path m file =
  match classify_by_id fs path file with
  | Ignored => Skip
  | Unreadable line => Warn line
  | Malformed => Crash slice_panic
  | Artifact key id up content =>
      Store key (let found := set_id (default zero_migration (m !! key)) id in
                 if up then set_migrationSQL found content
                 else set_rollbackSQL found content)
  end.
Proof.
  unfold ById.visit_file, classify_by_id.
  destruct (IsDir file); [reflexivity|].
  destruct (os.ReadFile _ _); try reflexivity.
  destruct (regexp.MatchString migrationsFilter _); [reflexivity|].
  destruct (regexp.MatchString rollbackFilter _); reflexivity.
Qed.

Lemma range_files_fold fs path files out m :
  snd (range_files fs path files out m)
  = fold_left (pair_step (classify fs path)) files (Ok m).
Proof.
  revert out m. induction files as [|f files IH]; intros out m; [reflexivity|].
  simpl. rewrite visit_file_classify.
  destruct (classify fs path f); simpl; rewrite ?IH; try reflexivity.
  clear. induction files; simpl; auto.
Qed.

Lemma range_files_fold_by_id fs path files out m :
  snd (ById.range_files fs path files out m)
  = fold_left (pair_step (classify_by_id fs path)) files (Ok m).
Proof.
  revert out m. induction files as [|f files IH]; intros out m; [reflexivity|].
  simpl. rewrite visit_file_classify_by_id.
  destruct (classify_by_id fs path f); simpl; rewrite ?IH; try reflexivity.
  clear. induction files; simpl; auto.
Qed.

Section Pairing.
Variable kind : DirEntry -> entry_kind.
(** The key of an artifact fixes its id. *)
Hypothesis key_id : forall f f' key i i' up up' c c',
  kind f = Artifact key i up c -> kind f' = Artifact key i' up' c' -> i = i'.

Lemma fold_pair_step_stuck (files : list DirEntry) (r : result (gmap string migration)) :
  is_Ok r = false -> fold_left (pair_step kind) files r = r.
Proof.
  intros Hr. induction files as [|f files IH]; [reflexivity|].
  simpl. destruct r; try discriminate; exact IH.
Qed.

Lemma store_comm (m : gmap string migration) k1 i1 up1 c1 k2 i2 up2 c2 :
  (k1 = k2 -> i1 = i2 /\ up1 <> up2) ->
  store (store m k1 i1 up1 c1) k2 i2 up2 c2 = store (store m k2 i2 up2 c2) k1 i1 up1 c1.
Proof.
  intros Hk. unfold store. destruct (decide (k1 = k2)) as [->|Hne].
  - destruct (Hk eq_refl) as [-> Hup].
    rewrite !lookup_insert_eq, !insert_insert_eq. f_equal.
    destruct up1, up2; try congruence; reflexivity.
  - rewrite !lookup_insert_ne by congruence.
    now apply insert_insert_ne.
Qed.

Lemma pair_step_comm (r : result (gmap string migration)) (f1 f2 : DirEntry) :
  (forall t, artifact_tag (kind f1) = Some t -> artifact_tag (kind f2) <> Some t) ->
  pair_step kind (pair_step kind r f1) f2 = pair_step kind (pair_step kind r f2) f1.
Proof.
  intros Htag. destruct r as [m| |]; try reflexivity. simpl.
  destruct (kind f1) as [| | |k1 i1 up1 c1] eqn:E1;
    destruct (kind f2) as [| | |k2 i2 up2 c2] eqn:E2;
    simpl; rewrite ?E1, ?E2; simpl; try reflexivity.
  f_equal. apply store_comm. intros ->. split.
  - exact (key_id _ _ _ _ _ _ _ _ _ E1 E2).
  - intros ->. exact (Htag _ eq_refl eq_refl).
Qed.

(** Visiting an entry twice in a row is visiting it once. *)
Lemma pair_step_idempotent (r : result (gmap string migration)) (f : DirEntry) :
  pair_step kind (pair_step kind r f) f = pair_step kind r f.
Proof.
  destruct r as [m| |]; try reflexivity. simpl.
  destruct (kind f) as [| | |k i up c] eqn:E; simpl; rewrite ?E; simpl; try reflexivity.
  f_equal. unfold store. rewrite lookup_insert_eq, insert_insert_eq. f_equal.
  destruct up; reflexivity.
Qed.

Lemma no_clash_cons (f : DirEntry) (files : list DirEntry) :
  no_clash kind (f :: files) -> no_clash kind files.
Proof.
  unfold no_clash. simpl. destruct (artifact_tag (kind f)); [|auto].
  now intros ?%NoDup_cons.
Qed.

(** The map does not depend on the order of a listing without clash. *)
Lemma fold_pair_step_perm (l1 l2 : list DirEntry) :
  l1 ≡ₚ l2 -> no_clash kind l1 ->
  forall r, fold_left (pair_step kind) l1 r = fold_left (pair_step kind) l2 r.
Proof.
  induction 1 as [|x l l' Hp IH|x y l|l l' l'' Hp1 IH1 Hp2 IH2]; intros Hc r.
  - reflexivity.
  - simpl. apply IH. eapply no_clash_cons, Hc.
  - simpl. f_equal. apply pair_step_comm. intros t Hy Hx.
    unfold no_clash in Hc. simpl in Hc. rewrite Hy, Hx in Hc.
    apply NoDup_cons in Hc as [Hc _]. apply Hc. left.
  - rewrite IH1 by assumption. apply IH2.
    unfold no_clash in *. now rewrite <- Hp1.
Qed.

(** Each artifact of a listing without clash is in the map under its key,
    on its side. *)
Lemma fold_pair_step_populates (files : list DirEntry) (m : gmap string migration)
    (f : DirEntry) key i up content :
  no_clash kind files ->
  fold_left (pair_step kind) files (Ok ∅) = Ok m ->
  f ∈ files -> kind f = Artifact key i up content ->
  exists u, m !! key = Some u /\ id u = i
    /\ (if up then migrationSQL u else rollbackSQL u) = content.
Proof.
  intros Hc Hm Hf Hk.
  apply list_elem_of_split in Hf as (l1 & l2 & ->).
  assert (Hp : l1 ++ f :: l2 ≡ₚ (l1 ++ l2) ++ [f]).
  { rewrite <- app_assoc. apply Permutation_app_head.
    rewrite Permutation_app_comm. reflexivity. }
  rewrite (fold_pair_step_perm _ _ Hp Hc), fold_left_app in Hm. simpl in Hm.
  destruct (fold_left (pair_step kind) (l1 ++ l2) (Ok ∅)) as [m0| |];
    simpl in Hm; try discriminate.
  rewrite Hk in Hm. simpl in Hm. injection Hm as <-.
  unfold store. rewrite lookup_insert_eq. eexists. split; [reflexivity|].
  destruct up; split; reflexivity.
Qed.

End Pairing.

Lemma Split_cons (s : string) (sep : ascii) :
  exists t ts, strings.Split s sep = t :: ts.
Proof.
  destruct s as [|c r]; simpl; [eauto|].
  destruct (Ascii.eqb c sep); [eauto|].
  destruct (strings.Split r sep); eauto.
Qed.

(** The first token of the key is the first token of the name. *)
Lemma Split_hd_Join (s : string) :
  2 <= length (strings.Split s "_") ->
  hd "" (strings.Split (strings.Join (take 2 (strings.Split s "_")) "_") "_")
  = hd "" (strings.Split s "_").
Proof.
  induction s as [|c r IH]; simpl; [lia|].
  destruct (Split_cons r "_") as (t & ts & Hr).
  destruct (Ascii.eqb c "_") eqn:Hc.
  - intros _. rewrite Hr. reflexivity.
  - rewrite Hr in IH |- *. simpl. intros Hlen.
    destruct ts as [|t1 ts]; simpl in Hlen; [lia|].
    simpl in IH |- *. rewrite append_cons. simpl. rewrite Hc.
    specialize (IH ltac:(lia)).
    change ("" +:+ t1) with t1 in *.
    change ("_" +:+ t1) with (String "_" t1) in *.
    destruct (strings.Split (t +:+ String "_" t1) "_") as [|x xs]; simpl in IH |- *;
      congruence.
Qed.

Lemma classify_key_id fs path f f' key i i' up up' c c' :
  classify fs path f = Artifact key i up c ->
  classify fs path f' = Artifact key i' up' c' -> i = i'.
Proof.
  assert (Hone : forall g k j u d,
            classify fs path g = Artifact k j u d -> j = hd "" (strings.Split k "_")).
  { intros g k j u d. unfold classify, slice_to.
    destruct (IsDir g); [discriminate|].
    destruct (os.ReadFile _ _); try discriminate.
    destruct (2 <=? length (strings.Split (Name g) "_"))%nat eqn:Hlen; [|discriminate].
    apply Nat.leb_le in Hlen.
    destruct (regexp.MatchString migrationsFilter _);
      [|destruct (regexp.MatchString rollbackFilter _); [|discriminate]];
      intros [= <- <- _ _]; now rewrite Split_hd_Join. }
  intros H1 H2. now rewrite (Hone _ _ _ _ _ H1), (Hone _ _ _ _ _ H2).
Qed.

Lemma classify_by_id_key_id fs path f f' key i i' up up' c c' :
  classify_by_id fs path f = Artifact key i up c ->
  classify_by_id fs path f' = Artifact key i' up' c' -> i = i'.
Proof.
  assert (Hone : forall g k j u d, classify_by_id fs path g = Artifact k j u d -> j = k).
  { intros g k j u d. unfold classify_by_id.
    destruct (IsDir g); [discriminate|].
    destruct (os.ReadFile _ _); try discriminate.
    destruct (regexp.MatchString migrationsFilter _);
      [|destruct (regexp.MatchString rollbackFilter _); [|discriminate]];
      now intros [= <- <- _ _]. }
  intros H1 H2. now rewrite (Hone _ _ _ _ _ H1), (Hone _ _ _ _ _ H2).
Qed.

Lemma child_ne (path n : string) : path +:+ "/" +:+ n <> path.
Proof.
  intros E. rewrite <- (append_nil_r path) in E at 2.
  apply String.app_inj in E. discriminate E.
Qed.

(** Listing the folder anew does not change what its files are. *)
Lemma classify_relist fs path entries file :
  classify (<[path := Dir entries]> fs) path file = classify fs path file.
Proof.
  unfold classify, os.ReadFile. now rewrite lookup_insert_ne by (apply not_eq_sym, child_ne).
Qed.

Lemma classify_by_id_relist fs path entries file :
  classify_by_id (<[path := Dir entries]> fs) path file = classify_by_id fs path file.
Proof.
  unfold classify_by_id, os.ReadFile.
  now rewrite lookup_insert_ne by (apply not_eq_sym, child_ne).
Qed.

Lemma getMigrations_fold fs path files :
  os.ReadDir fs path = Ok files ->
  snd (getMigrations fs path) = fold_left (pair_step (classify fs path)) files (Ok ∅).
Proof. intros E. unfold getMigrations. rewrite E. apply range_files_fold. Qed.

Lemma getMigrations_by_id_fold fs path files :
  os.ReadDir fs path = Ok files ->
  snd (ById.getMigrations fs path)
  = fold_left (pair_step (classify_by_id fs path)) files (Ok ∅).
Proof. intros E. unfold ById.getMigrations. rewrite E. apply range_files_fold_by_id. Qed.

Lemma ReadDir_relist fs path entries :
  os.ReadDir (<[path := Dir entries]> fs) path = Ok entries.
Proof. unfold os.ReadDir. now rewrite lookup_insert_eq. Qed.

Lemma fold_left_ext_step {A B} (f g : A -> B -> A) (l : list B) (a : A) :
  (forall x y, f x y = g x y) -> fold_left f l a = fold_left g l a.
Proof.
  intros E. revert a. induction l as [|b l IH]; intros a; simpl; [reflexivity|].
  now rewrite E, IH.
Qed.

(** C5 fails as stated: two apply files under one key, listed in the two
    possible orders, give two different maps, in the current revision (the
    key is the first two tokens of the name) and in the one that keys by
    id. *)
Lemma getMigrations_order_counterexample :
  let ab := [("1_a_b_up.sql", "X"); ("1_a_c_up.sql", "Y")] in
  let a_b := [("1_a_up.sql", "X"); ("1_b_up.sql", "Y")] in
  snd (getMigrations (folder "m" ab) "m") = Ok {[ "1_a" := mkMigration "1" "" "Y" "" ]}
  /\ snd (getMigrations (folder "m" (rev ab)) "m")
     = Ok {[ "1_a" := mkMigration "1" "" "X" "" ]}
  /\ snd (ById.getMigrations (folder "m" a_b) "m")
     = Ok {[ "1" := mkMigration "1" "" "Y" "" ]}
  /\ snd (ById.getMigrations (folder "m" (rev a_b)) "m")
     = Ok {[ "1" := mkMigration "1" "" "X" "" ]}.
Proof. repeat split; vm_compute; reflexivity. Qed.

(** C5, amended: for every folder in which no two files of the same side
    share a key, the map does not depend on the order of the listing, and
    the apply file fills [migrationSQL] and the rollback file fills
    [rollbackSQL] of the one unit stored under their key; an entry listed
    twice in a row counts once. *)
Theorem getMigrations_order_independent (fs : gmap string node) (path : string)
    (l1 l2 : list DirEntry) :
  os.ReadDir fs path = Ok l1 ->
  l1 ≡ₚ l2 ->
  no_clash (classify fs path) l1 ->
  snd (getMigrations (<[path := Dir l2]> fs) path) = snd (getMigrations fs path)
  /\ (forall m f key i up content,
        snd (getMigrations fs path) = Ok m ->
        f ∈ l1 -> classify fs path f = Artifact key i up content ->
        exists u, m !! key = Some u /\ id u = i
          /\ (if up then migrationSQL u else rollbackSQL u) = content)
  /\ (forall front f back,
        l1 = front ++ f :: back ->
        snd (getMigrations (<[path := Dir (front ++ f :: f :: back)]> fs) path)
        = snd (getMigrations fs path)).
Proof.
  intros Hdir Hperm Hclash.
  assert (Hrelist : forall l,
    snd (getMigrations (<[path := Dir l]> fs) path)
    = fold_left (pair_step (classify fs path)) l (Ok ∅)).
  { intros l. rewrite (getMigrations_fold _ _ _ (ReadDir_relist fs path l)).
    apply fold_left_ext_step. intros x y. unfold pair_step.
    now rewrite classify_relist. }
  split; [|split].
  - rewrite Hrelist, (getMigrations_fold _ _ _ Hdir).
    symmetry. apply fold_pair_step_perm; auto. apply classify_key_id.
  - intros m f key i up content Hm Hf Hk.
    rewrite (getMigrations_fold _ _ _ Hdir) in Hm.
    eapply fold_pair_step_populates; eauto. apply classify_key_id.
  - intros front f back ->.
    rewrite Hrelist, (getMigrations_fold _ _ _ Hdir), !fold_left_app. simpl.
    now rewrite pair_step_idempotent.
Qed.

(** The same for the revision that keys by id. *)
Lemma getMigrations_by_id_order_independent (fs : gmap string node) (path : string)
    (l1 l2 : list DirEntry) :
  os.ReadDir fs path = Ok l1 ->
  l1 ≡ₚ l2 ->
  no_clash (classify_by_id fs path) l1 ->
  snd (ById.getMigrations (<[path := Dir l2]> fs) path) = snd (ById.getMigrations fs path).
Proof.
  intros Hdir Hperm Hclash.
  rewrite (getMigrations_by_id_fold _ _ _ (ReadDir_relist fs path l2)).
  rewrite (getMigrations_by_id_fold _ _ _ Hdir).
  rewrite (fold_left_ext_step _ (pair_step (classify_by_id fs path)))
    by (intros x y; unfold pair_step; now rewrite classify_by_id_relist).
  symmetry. apply fold_pair_step_perm; auto. apply classify_by_id_key_id.
Qed.

(** Closes a decidable goal about concrete data by evaluation. *)
Ltac by_decide :=
  match goal with
  | |- ?P => apply (@bool_decide_unpack P _); vm_compute; exact I
  end.

Lemma getMigrations_order_independent_witness :
  snd (getMigrations (<["m" := Dir (rev pair_listing)]> pair_folder) "m")
  = Ok {[ "1_a" := mkMigration "1" "" "CREATE TABLE a" "DROP TABLE a" ]}.
Proof.
  destruct (getMigrations_order_independent pair_folder "m" pair_listing
              (rev pair_listing)) as (Hsame & _ & _).
  - vm_compute. reflexivity.
  - apply Permutation_rev.
  - by_decide.
  - rewrite Hsame. vm_compute. reflexivity.
Defined.

(** ** Entries that are not artifacts *)

Lemma fold_pair_step_malformed (kind : DirEntry -> entry_kind) (files : list DirEntry)
    (f : DirEntry) (r : result (gmap string migration)) :
  f ∈ files -> kind f = Malformed ->
  r = Panic slice_panic \/ is_Ok r = true ->
  fold_left (pair_step kind) files r = Panic slice_panic.
Proof.
  revert r. induction files as [|x files IH]; intros r Hf Hk Hr.
  - apply elem_of_nil in Hf as [].
  - simpl. destruct Hr as [->|Hr].
    + now apply fold_pair_step_stuck.
    + destruct r as [m| |]; try discriminate. simpl.
      apply elem_of_cons in Hf as [<-|Hf].
      * rewrite Hk. simpl. now apply fold_pair_step_stuck.
      * apply IH; auto.
        destruct (kind x); simpl; auto.
Qed.

(** A sub-directory is passed over, and so is a file that cannot be read,
    after a line of warning; the loop goes on with the map as it was. *)
Lemma range_files_skips (fs : gmap string node) (path : string) (file : DirEntry)
    (rest : list DirEntry) (out : list string) (m : gmap string migration) :
  (IsDir file = true ->
   range_files fs path (file :: rest) out m = range_files fs path rest out m)
  /\ (forall err,
        IsDir file = false ->
        os.ReadFile fs (path +:+ "/" +:+ Name file) = Error err ->
        range_files fs path (file :: rest) out m
        = range_files fs path rest
            (out ++ ["Error reading file " +:+ Name file +:+ ": " +:+ err +:+ strings.nl])
            m).
Proof.
  split.
  - intros Hdir. simpl. unfold visit_file. now rewrite Hdir.
  - intros err Hreg Hread. simpl. unfold visit_file. now rewrite Hreg, Hread.
Qed.

(** A readable file with an underscore in its name that matches neither
    filter is passed over too. *)
Lemma range_files_ignores (fs : gmap string node) (path : string) (file : DirEntry)
    (rest : list DirEntry) (out : list string) (m : gmap string migration)
    (content : string) :
  IsDir file = false ->
  os.ReadFile fs (path +:+ "/" +:+ Name file) = Ok content ->
  2 <= length (strings.Split (Name file) "_") ->
  regexp.MatchString migrationsFilter (Name file) = false ->
  regexp.MatchString rollbackFilter (Name file) = false ->
  range_files fs path (file :: rest) out m = range_files fs path rest out m.
Proof.
  intros Hreg Hread Hlen Hup Hdown. simpl. unfold visit_file, slice_to.
  rewrite Hreg, Hread, Hup, Hdown.
  apply Nat.leb_le in Hlen. now rewrite Hlen.
Qed.

(** C6: in the current revision a readable regular file whose name has no
    underscore makes [getMigrations] panic on [splitName[:2]], whatever
    else the folder holds; such a name matches neither filter, so the
    entry should have been passed over. *)
Theorem getMigrations_panics_without_underscore (fs : gmap string node) (path : string)
    (files : list DirEntry) (file : DirEntry) (content : string) :
  os.ReadDir fs path = Ok files ->
  file ∈ files ->
  IsDir file = false ->
  os.ReadFile fs (path +:+ "/" +:+ Name file) = Ok content ->
  strings.Split (Name file) "_" = [Name file] ->
  snd (getMigrations fs path) = Panic slice_panic.
Proof.
  intros Hdir Hin Hreg Hread Hsplit.
  rewrite (getMigrations_fold _ _ _ Hdir).
  apply fold_pair_step_malformed with (f := file); auto.
  unfold classify. now rewrite Hreg, Hread, Hsplit.
Qed.

Lemma getMigrations_panics_without_underscore_witness :
  snd (getMigrations readme_folder "m") = Panic slice_panic
  /\ regexp.MatchString migrationsFilter "README.md" = false
  /\ regexp.MatchString rollbackFilter "README.md" = false
  /\ snd (ById.getMigrations readme_folder "m")
     = Ok {[ "1" := mkMigration "1" "" "CREATE TABLE a" "DROP TABLE a" ]}.
Proof.
  split; [|repeat split; vm_compute; reflexivity].
  apply (getMigrations_panics_without_underscore readme_folder "m"
           [mkDirEntry "1_a_down.sql" false; mkDirEntry "1_a_up.sql" false;
            mkDirEntry "README.md" false]
           (mkDirEntry "README.md" false) "How to write a migration").
  - vm_compute. reflexivity.
  - apply list_elem_of_In. simpl. tauto.
  - reflexivity.
  - vm_compute. reflexivity.
  - vm_compute. reflexivity.
Defined.

(** The revision that keys by id never panics: it passes over every entry
    that is a directory or matches neither filter, and goes on after the
    warning for a file it cannot read. *)
Lemma getMigrations_by_id_no_panic (fs : gmap string node) (path : string) (msg : string) :
  snd (ById.getMigrations fs path) <> Panic msg.
Proof.
  assert (H : forall files out m,
            snd (ById.range_files fs path files out m) <> Panic msg).
  { induction files as [|f files IH]; intros out m; [discriminate|].
    simpl. rewrite visit_file_classify_by_id.
    destruct (classify_by_id fs path f) eqn:E; try apply IH.
    revert E. unfold classify_by_id.
    destruct (IsDir f); [discriminate|].
    destruct (os.ReadFile fs _); try discriminate.
    destruct (regexp.MatchString migrationsFilter _); [discriminate|].
    destruct (regexp.MatchString rollbackFilter _); discriminate. }
  unfold ById.getMigrations. destruct (os.ReadDir fs path) as [files|e|e] eqn:Hdir;
    [apply H|discriminate|].
  unfold os.ReadDir in Hdir. destruct (fs !! path) as [[]|]; discriminate.
Qed.

(** ** One unit in its transaction *)

Section Engine.
Context `{Orm}.

Lemma in_transaction_fails (sql : string) (db : Database) (e : string) :
  Exec sql (schema db) = inl e ->
  in_transaction sql db = (rolled_back sql db, Some e).
Proof.
  intros E. unfold in_transaction, gorm.BeginTx, gorm.ExecTx, gorm.RollbackTx, gorm.log.
  simpl. rewrite E. simpl. unfold rolled_back. now rewrite <- !app_assoc.
Qed.

Lemma in_transaction_commits (sql : string) (db : Database) (s : Schema) :
  Exec sql (schema db) = inr s -> CommitError s = None ->
  in_transaction sql db
  = (mkDatabase s (ledger db) (journal db ++ [Begin; Run sql; Commit]), None).
Proof.
  intros E C. unfold in_transaction, gorm.BeginTx, gorm.ExecTx, gorm.CommitTx,
    gorm.RollbackTx, gorm.log.
  simpl. rewrite E. simpl. rewrite C. simpl. now rewrite <- !app_assoc.
Qed.

Lemma in_transaction_commit_fails (sql : string) (db : Database) (s : Schema) (e : string) :
  Exec sql (schema db) = inr s -> CommitError s = Some e ->
  in_transaction sql db = (rolled_back sql db, Some e).
Proof.
  intros E C. unfold in_transaction, gorm.BeginTx, gorm.ExecTx, gorm.CommitTx,
    gorm.RollbackTx, gorm.log.
  simpl. rewrite E. simpl. rewrite C. simpl. unfold rolled_back.
  now rewrite <- !app_assoc.
Qed.

(** A transaction leaves the table of applied ids alone, and where it
    returns an error the content is what it was. *)
Lemma in_transaction_ledger (sql : string) (db db' : Database) (err : option string) :
  in_transaction sql db = (db', err) ->
  ledger db' = ledger db /\ (err <> None -> schema db' = schema db).
Proof.
  destruct (Exec sql (schema db)) as [e|s] eqn:E.
  - rewrite (in_transaction_fails _ _ _ E). intros [= <- <-]. now split.
  - destruct (CommitError s) as [e|] eqn:C.
    + rewrite (in_transaction_commit_fails _ _ _ _ E C). intros [= <- <-]. now split.
    + rewrite (in_transaction_commits _ _ _ E C). intros [= <- <-]. now split.
Qed.

Lemma runMigration_pending_fails (u : migration) (db : Database) (e : string) :
  id u <> "" ->
  gormigrate.migrationRan db (id u) = Ok false ->
  Exec (migrationSQL u) (schema db) = inl e ->
  gormigrate.runMigration (setupMigration u) db = (rolled_back (migrationSQL u) db, Some e).
Proof.
  intros Hid Hran E. unfold gormigrate.runMigration. simpl.
  apply String.eqb_neq in Hid. rewrite Hid, Hran.
  now rewrite (in_transaction_fails _ _ _ E).
Qed.

Lemma runMigration_pending_commits (u : migration) (db : Database) (s : Schema) :
  id u <> "" ->
  gormigrate.migrationRan db (id u) = Ok false ->
  Exec (migrationSQL u) (schema db) = inr s -> CommitError s = None ->
  gormigrate.runMigration (setupMigration u) db
  = (committed (id u) (migrationSQL u) s db, None).
Proof.
  intros Hid Hran E C. unfold gormigrate.runMigration. simpl.
  apply String.eqb_neq in Hid. rewrite Hid, Hran.
  now rewrite (in_transaction_commits _ _ _ E C).
Qed.

(** The loop over a list cut in two, when the target is not in the first
    part. *)
Lemma runMigrations_app (pre rest : list gormigrate.Migration) (target : string)
    (db : Database) :
  target ∉ map gormigrate.ID pre ->
  gormigrate.runMigrations (pre ++ rest) target db =
  match gormigrate.runMigrations pre "" db with
  | (db1, None) => gormigrate.runMigrations rest target db1
  | (db1, Some e) => (db1, Some e)
  end.
Proof.
  revert db. induction pre as [|m pre IH]; intros db Ht; [reflexivity|].
  simpl. destruct (gormigrate.runMigration m db) as [db1 [e|]]; [reflexivity|].
  simpl in Ht. apply not_elem_of_cons in Ht as [Hm Hpre].
  assert (String.eqb (gormigrate.ID m) target = false) as ->
    by (apply String.eqb_neq; congruence).
  rewrite andb_false_r. simpl. now apply IH.
Qed.

Lemma checkReservedID_none (ms : list gormigrate.Migration) :
  Forall (fun m => gormigrate.ID m <> gormigrate.initSchemaMigrationID) ms ->
  gormigrate.checkReservedID ms = None.
Proof.
  induction 1 as [|m ms Hm _ IH]; [reflexivity|].
  simpl. apply String.eqb_neq in Hm. now rewrite Hm.
Qed.

Lemma checkDuplicatedID_none (ms : list gormigrate.Migration) (lookup : gset string) :
  gormigrate.checkDuplicatedID lookup ms = None <->
  NoDup (map gormigrate.ID ms) /\ forall m, m ∈ ms -> gormigrate.ID m ∉ lookup.
Proof.
  revert lookup. induction ms as [|m ms IH]; intros lookup; simpl.
  - split; [intros _; split; [constructor | intros m Hm; inversion Hm] | reflexivity].
  - destruct (decide (gormigrate.ID m ∈ lookup)) as [Hin|Hout].
    + split; [discriminate|]. intros [_ Hall].
      exfalso. apply (Hall m); [left | exact Hin].
    + rewrite IH. split.
      * intros [Hnd Hall]. split.
        -- constructor; [|exact Hnd]. intros Hdup.
           apply list_elem_of_fmap in Hdup as (m' & E & Hm').
           apply (Hall m' Hm'). rewrite <- E.
           apply elem_of_union. left. now apply elem_of_singleton.
        -- intros m' Hm'. apply elem_of_cons in Hm' as [E|Hm']; [now subst m'|].
           intros Hin. apply (Hall m' Hm'), elem_of_union. now right.
      * intros [Hnd Hall]. apply NoDup_cons in Hnd as [Hm Hnd]. split; [exact Hnd|].
        intros m' Hm'. apply not_elem_of_union. split.
        -- intros E%elem_of_singleton. apply Hm. rewrite <- E.
           apply list_elem_of_fmap. eauto.
        -- apply Hall. now right.
Qed.

Lemma checkDuplicatedID_error (ms : list gormigrate.Migration) (lookup : gset string)
    (err : string) :
  gormigrate.checkDuplicatedID lookup ms = Some err ->
  exists i, err = gormigrate.DuplicatedIDError i.
Proof.
  revert lookup. induction ms as [|m ms IH]; intros lookup; simpl; [discriminate|].
  destruct (decide _); [intros [= <-]; eauto | apply IH].
Qed.

Lemma checkIDExist_last (ms : list gormigrate.Migration) (t : gormigrate.Migration) :
  last ms = Some t -> gormigrate.checkIDExist ms (gormigrate.ID t) = None.
Proof.
  intros Hl. unfold gormigrate.checkIDExist.
  assert (existsb (fun m => String.eqb (gormigrate.ID m) (gormigrate.ID t)) ms = true) as ->;
    [|reflexivity].
  apply existsb_exists. exists t. split; [|apply String.eqb_refl].
  apply list_elem_of_In. apply last_Some in Hl as [l' ->].
  apply elem_of_app. right. left.
Qed.

End Engine.

(** ** Applying the units *)

Section Apply.
Context `{Orm}.

Lemma ID_setupMigration (units : list migration) :
  map gormigrate.ID (map setupMigration units) = map id units.
Proof. induction units as [|u units IH]; simpl; [reflexivity | now rewrite IH]. Qed.

(** With ids that are valid and distinct, [Migrate] is the loop over the
    units, up to the last one, on the database with its table. *)
Lemma Migrate_loop (units : list migration) (t : migration) (db : Database) :
  NoDup (map id units) ->
  Forall valid_id (map id units) ->
  last units = Some t ->
  gormigrate.Migrate (map setupMigration units) db
  = gormigrate.runMigrations (map setupMigration units) (id t)
      (gormigrate.createMigrationTableIfNotExists db).
Proof.
  intros Hnd Hvalid Hlast. unfold gormigrate.Migrate.
  assert (Hl : last (map setupMigration units) = Some (setupMigration t)).
  { change (last (setupMigration <$> units) = Some (setupMigration t)).
    now rewrite fmap_last, Hlast. }
  rewrite Hl. unfold gormigrate.migrate.
  rewrite checkReservedID_none.
  2:{ apply Forall_forall. intros m Hm.
      apply list_elem_of_fmap in Hm as (u & -> & Hu). simpl.
      rewrite Forall_forall in Hvalid. apply (Hvalid (id u)).
      apply list_elem_of_fmap. eauto. }
  assert (gormigrate.checkDuplicatedID ∅ (map setupMigration units) = None) as ->.
  { apply checkDuplicatedID_none. rewrite ID_setupMigration. split; [exact Hnd|].
    intros m _. apply not_elem_of_empty. }
  rewrite (checkIDExist_last _ _ Hl). simpl.
  destruct units; [discriminate | reflexivity].
Qed.

Lemma last_not_in_front (pre post : list migration) (u t : migration) :
  NoDup (map id (pre ++ u :: post)) ->
  last (pre ++ u :: post) = Some t ->
  id t ∉ map id pre.
Proof.
  intros Hnd Hlast Hin.
  rewrite map_app in Hnd. apply NoDup_app in Hnd as (_ & Hdisj & _).
  apply (Hdisj _ Hin).
  rewrite last_app in Hlast.
  destruct (last (u :: post)) as [t'|] eqn:E.
  - injection Hlast as ->. apply last_Some in E as [l' E]. rewrite E.
    rewrite map_app. apply elem_of_app. right. left.
  - apply last_None in E. discriminate E.
Qed.

(** C2: a pending unit runs in a transaction of its own.  When its batch
    fails the transaction is rolled back and [Migrate] returns the error at
    once: the content and the table of ids are what the earlier units of
    the same call left, which stay committed, and no later unit runs.  When
    the batch succeeds it is committed and the id is appended to the table. *)
Theorem unit_runs_in_its_own_transaction (pre post : list migration) (u : migration)
    (db db1 : Database) :
  NoDup (map id (pre ++ u :: post)) ->
  Forall valid_id (map id (pre ++ u :: post)) ->
  gormigrate.runMigrations (map setupMigration pre) ""
    (gormigrate.createMigrationTableIfNotExists db) = (db1, None) ->
  gormigrate.migrationRan db1 (id u) = Ok false ->
  (forall e, Exec (migrationSQL u) (schema db1) = inl e ->
     gormigrate.Migrate (map setupMigration (pre ++ u :: post)) db
     = (rolled_back (migrationSQL u) db1, Some e))
  /\ (forall s, Exec (migrationSQL u) (schema db1) = inr s -> CommitError s = None ->
        gormigrate.runMigrations (map setupMigration (pre ++ [u])) ""
          (gormigrate.createMigrationTableIfNotExists db)
        = (committed (id u) (migrationSQL u) s db1, None)).
Proof.
  intros Hnd Hvalid Hpre Hpending.
  assert (Hu : valid_id (id u)).
  { rewrite Forall_forall in Hvalid. apply Hvalid, list_elem_of_fmap.
    exists u. split; [reflexivity|]. apply elem_of_app. right. left. }
  destruct Hu as [Hu _]. split.
  - intros e He.
    destruct (last (pre ++ u :: post)) as [t|] eqn:Hlast.
    2:{ apply last_None in Hlast. now destruct pre. }
    rewrite (Migrate_loop _ t) by assumption.
    rewrite map_app, runMigrations_app, Hpre.
    2:{ rewrite ID_setupMigration. eapply last_not_in_front; eauto. }
    simpl. now rewrite (runMigration_pending_fails _ _ _ Hu Hpending He).
  - intros s Hs Hc.
    rewrite map_app, runMigrations_app, Hpre.
    2:{ rewrite ID_setupMigration. intros Hin.
        rewrite Forall_forall in Hvalid.
        destruct (Hvalid "") as [Hne _]; [|now apply Hne].
        rewrite map_app. apply elem_of_app. left. exact Hin. }
    simpl. now rewrite (runMigration_pending_commits _ _ _ Hu Hpending Hs Hc).
Qed.

End Apply.

Lemma unit_runs_in_its_own_transaction_witness :
  gormigrate.Migrate (map setupMigration three_units) Mem.empty_db
  = (Mem.database ["CREATE TABLE a"] (Some ["1"])
       [Begin; Run "CREATE TABLE a"; Commit; Begin; Run "BAD TABLE b"; Rollback],
     Some "syntax error near BAD TABLE b").
Proof.
  destruct (unit_runs_in_its_own_transaction
              [mkMigration "1" "" "CREATE TABLE a" "DROP TABLE a"]
              [mkMigration "3" "" "CREATE TABLE c" "DROP TABLE c"]
              (mkMigration "2" "" "BAD TABLE b" "DROP TABLE b")
              Mem.empty_db
              (Mem.database ["CREATE TABLE a"] (Some ["1"])
                 [Begin; Run "CREATE TABLE a"; Commit])) as [Hfail _].
  - by_decide.
  - repeat constructor; discriminate.
  - vm_compute. reflexivity.
  - vm_compute. reflexivity.
  - exact (Hfail "syntax error near BAD TABLE b" eq_refl).
Defined.

(** ** The ids of discovered units *)

Lemma void_nullable (r : regexp.re) : is_void r = true -> regexp.nullable r = false.
Proof.
  induction r; simpl; try discriminate; try reflexivity.
  - intros [H1|H2]%orb_true_iff.
    + now rewrite IHr1.
    + rewrite IHr2 by assumption. apply andb_false_r.
  - intros [H1 H2]%andb_true_iff. now rewrite IHr1, IHr2.
Qed.

Lemma void_deriv (c : ascii) (r : regexp.re) :
  is_void r = true -> is_void (regexp.deriv c r) = true.
Proof.
  induction r; simpl; try discriminate; try reflexivity.
  - intros [H1|H2]%orb_true_iff.
    + rewrite (void_nullable _ H1). simpl. now rewrite IHr1.
    + destruct (regexp.nullable r1); simpl; rewrite ?IHr2, ?H2 by assumption;
        now rewrite ?orb_true_r.
  - intros [H1 H2]%andb_true_iff. now rewrite IHr1, IHr2.
Qed.

Lemma void_no_match (s : string) (r : regexp.re) :
  is_void r = true -> regexp.MatchString r s = false.
Proof.
  revert r. induction s as [|c s IH]; intros r Hr; simpl.
  - now apply void_nullable.
  - now apply IH, void_deriv.
Qed.

(** A text matched by [\d+] followed by anything starts with a digit. *)
Lemma digits_first (r : regexp.re) (s : string) :
  regexp.MatchString (regexp.Seq (regexp.Plus regexp.digit) r) s = true ->
  exists c s', s = String c s' /\ strings.in_range 48 57 c = true.
Proof.
  destruct s as [|c s']; simpl; [discriminate|].
  destruct (strings.in_range 48 57 c) eqn:Hd; [eauto|].
  now rewrite void_no_match.
Qed.

Lemma digit_led_valid (i : string) : digit_led i -> valid_id i.
Proof.
  intros (c & r & -> & Hc). split; [discriminate|].
  unfold gormigrate.initSchemaMigrationID. intros [= -> _]. discriminate Hc.
Qed.

Lemma Split_digit_led (s : string) :
  digit_led s -> digit_led (hd "" (strings.Split s "_")).
Proof.
  intros (c & r & -> & Hc). simpl.
  destruct (Ascii.eqb_spec c "_") as [->|_]; [discriminate Hc|].
  destruct (strings.Split r "_"); simpl; exists c; eauto.
Qed.

Lemma classify_digit_led fs path f key i up content :
  classify fs path f = Artifact key i up content -> digit_led i.
Proof.
  unfold classify.
  destruct (IsDir f); [discriminate|].
  destruct (os.ReadFile _ _); try discriminate.
  destruct (slice_to 2 _); [|discriminate].
  destruct (regexp.MatchString migrationsFilter _) eqn:Hup.
  - intros [= _ <- _ _]. apply Split_digit_led. exact (digits_first _ _ Hup).
  - destruct (regexp.MatchString rollbackFilter _) eqn:Hdown; [|discriminate].
    intros [= _ <- _ _]. apply Split_digit_led. exact (digits_first _ _ Hdown).
Qed.

(** What holds of the id of every artifact holds of the id of every unit. *)
Lemma fold_pair_step_ids (kind : DirEntry -> entry_kind) (P : string -> Prop)
    (files : list DirEntry) (m0 m : gmap string migration) :
  (forall f key i up content, kind f = Artifact key i up content -> P i) ->
  (forall k u, m0 !! k = Some u -> P (id u)) ->
  fold_left (pair_step kind) files (Ok m0) = Ok m ->
  forall k u, m !! k = Some u -> P (id u).
Proof.
  intros Hkind. revert m0. induction files as [|f files IH]; intros m0 H0 Hm.
  - now injection Hm as <-.
  - simpl in Hm. destruct (kind f) as [| | |key i up content] eqn:E; simpl in Hm.
    + eapply IH; eauto.
    + eapply IH; eauto.
    + rewrite fold_pair_step_stuck in Hm by reflexivity. discriminate.
    + eapply IH; [|exact Hm]. intros k u. unfold store.
      destruct (decide (key = k)) as [->|Hne].
      * rewrite lookup_insert_eq. intros [= <-].
        destruct up; simpl; eapply Hkind; eauto.
      * rewrite lookup_insert_ne by assumption. apply H0.
Qed.

Lemma getMigrations_ids_valid fs path out (migrations : gmap string migration) :
  getMigrations fs path = (out, Ok migrations) ->
  forall k u, migrations !! k = Some u -> valid_id (id u).
Proof.
  intros Hget k u Hu. apply digit_led_valid.
  assert (Hsnd : snd (getMigrations fs path) = Ok migrations) by now rewrite Hget.
  unfold getMigrations in Hsnd.
  destruct (os.ReadDir fs path) as [files| |]; try discriminate.
  rewrite range_files_fold in Hsnd.
  eapply (fold_pair_step_ids _ digit_led); [| |exact Hsnd|exact Hu].
  - intros *. apply classify_digit_led.
  - intros k' u' Hk'. rewrite lookup_empty in Hk'. discriminate.
Qed.

(** In the revision that keys by id every unit is stored under its id, so
    no two units of the map have the same id. *)
Lemma getMigrations_by_id_keys fs path (migrations : gmap string migration) :
  snd (ById.getMigrations fs path) = Ok migrations ->
  forall k u, migrations !! k = Some u -> id u = k.
Proof.
  unfold ById.getMigrations.
  destruct (os.ReadDir fs path) as [files| |]; try discriminate.
  rewrite range_files_fold_by_id.
  assert (Hinv : forall m0 : gmap string migration,
            (forall k u, m0 !! k = Some u -> id u = k) ->
            fold_left (pair_step (classify_by_id fs path)) files (Ok m0) = Ok migrations ->
            forall k u, migrations !! k = Some u -> id u = k).
  { induction files as [|f files IH]; intros m0 H0 Hm.
    - now injection Hm as <-.
    - simpl in Hm.
      destruct (classify_by_id fs path f) as [| | |key i up content] eqn:E; simpl in Hm.
      + eapply IH; eauto.
      + eapply IH; eauto.
      + rewrite fold_pair_step_stuck in Hm by reflexivity. discriminate.
      + eapply IH; [|exact Hm]. intros k u. unfold store.
        assert (Hi : i = key).
        { revert E. unfold classify_by_id. destruct (IsDir f); [discriminate|].
          destruct (os.ReadFile fs _); try discriminate.
          destruct (regexp.MatchString migrationsFilter _);
            [|destruct (regexp.MatchString rollbackFilter _); [|discriminate]];
            now intros [= <- <- _ _]. }
        destruct (decide (key = k)) as [->|Hne].
        * rewrite lookup_insert_eq. intros [= <-]. now destruct up.
        * rewrite lookup_insert_ne by assumption. apply H0. }
  apply Hinv. intros k u Hk. rewrite lookup_empty in Hk. discriminate.
Qed.

(** ** The slice handed to the engine *)

Lemma range_map_elem {V} (order : list string) (m : gmap string V) (v : V) :
  v ∈ range_map order m <-> exists k, k ∈ order /\ m !! k = Some v.
Proof. unfold range_map. apply list_elem_of_omap. Qed.

Lemma range_order_elem {V} (order : list string) (m : gmap string V) (k : string) :
  range_order order m -> (k ∈ order <-> is_Some (m !! k)).
Proof.
  intros [_ Hdom]. rewrite <- elem_of_dom, <- Hdom. now rewrite elem_of_list_to_set.
Qed.

(** Distinct ids in the slice mean that no two keys hold the same id. *)
Lemma range_map_NoDup_ids (order : list string) (m : gmap string migration)
    (k1 k2 : string) (u1 u2 : migration) :
  NoDup (map id (range_map order m)) ->
  k1 ∈ order -> k2 ∈ order ->
  m !! k1 = Some u1 -> m !! k2 = Some u2 -> id u1 = id u2 -> k1 = k2.
Proof.
  induction order as [|k order IH]; intros Hnd H1 H2 E1 E2 Eid.
  - inversion H1.
  - assert (Hfresh : forall ka kb ua ub,
              k = ka -> kb ∈ order -> m !! ka = Some ua -> m !! kb = Some ub ->
              id ua = id ub -> False).
    { intros ka kb ua ub -> Hb Ea Eb Eab. unfold range_map in Hnd. simpl in Hnd.
      rewrite Ea in Hnd. simpl in Hnd. apply NoDup_cons in Hnd as [Hnd _].
      apply Hnd. rewrite Eab. apply list_elem_of_fmap. exists ub. split; [reflexivity|].
      apply range_map_elem. eauto. }
    apply elem_of_cons in H1 as [->|H1], H2 as [->|H2].
    + reflexivity.
    + exfalso. eapply (Hfresh k k2); eauto.
    + exfalso. eapply (Hfresh k k1); eauto.
    + apply IH; auto. unfold range_map in Hnd |- *. simpl in Hnd.
      destruct (m !! k); simpl in Hnd; [now apply NoDup_cons in Hnd as [_ Hnd] | exact Hnd].
Qed.

(** ** Running the migrations of a folder *)

Section Run.
Context `{Orm}.

(** [Migrate] on units with valid ids: the duplicate is refused before
    anything reaches the database, or the loop runs. *)
Lemma Migrate_cases (units : list migration) (db : Database) :
  Forall valid_id (map id units) -> units <> [] ->
  (~ NoDup (map id units)
   /\ exists i, gormigrate.Migrate (map setupMigration units) db
                = (db, Some (gormigrate.DuplicatedIDError i)))
  \/ (NoDup (map id units)
      /\ exists t, last units = Some t
         /\ gormigrate.Migrate (map setupMigration units) db
            = gormigrate.runMigrations (map setupMigration units) (id t)
                (gormigrate.createMigrationTableIfNotExists db)).
Proof.
  intros Hvalid Hne.
  destruct (last units) as [t|] eqn:Hlast.
  2:{ apply last_None in Hlast. contradiction. }
  destruct (decide (NoDup (map id units))) as [Hnd|Hdup].
  - right. split; [exact Hnd|]. exists t. split; [reflexivity|].
    now apply Migrate_loop.
  - left. split; [exact Hdup|].
    unfold gormigrate.Migrate.
    assert (Hl : last (map setupMigration units) = Some (setupMigration t)).
    { change (last (setupMigration <$> units) = Some (setupMigration t)).
      now rewrite fmap_last, Hlast. }
    rewrite Hl. unfold gormigrate.migrate.
    rewrite checkReservedID_none.
    2:{ apply Forall_forall. intros m Hm.
        apply list_elem_of_fmap in Hm as (u & -> & Hu). simpl.
        rewrite Forall_forall in Hvalid. apply (Hvalid (id u)).
        apply list_elem_of_fmap. eauto. }
    destruct (gormigrate.checkDuplicatedID ∅ (map setupMigration units)) as [err|] eqn:E.
    + apply checkDuplicatedID_error in E as [i ->]. exists i.
      destruct units; [contradiction | reflexivity].
    + apply checkDuplicatedID_none in E as [E _].
      rewrite ID_setupMigration in E. contradiction.
Qed.

Lemma setupManager_units (order : list string) (w : World) (cfg : DBConfig)
    (out : list string) (migrations : gmap string migration) (k : string) (u : migration) :
  newDatabase cfg = None ->
  getMigrations (fs w) (MigrationsFolderPath cfg) = (out, Ok migrations) ->
  migrations !! k = Some u ->
  setupManager order w cfg
  = (mkWorld (fs w) (db w) (stdout w ++ out),
     Ok (map setupMigration (range_map order migrations))).
Proof.
  intros Hopen Hget Hk. unfold setupManager. rewrite Hopen, Hget.
  destruct (size migrations <=? 0)%nat eqn:Hsize; [|reflexivity].
  apply Nat.leb_le in Hsize.
  assert (Hempty : migrations = ∅) by (apply map_size_empty_inv; lia).
  rewrite Hempty, lookup_empty in Hk. discriminate.
Qed.

Lemma range_map_valid (order : list string) (migrations : gmap string migration) :
  (forall k u, migrations !! k = Some u -> valid_id (id u)) ->
  Forall valid_id (map id (range_map order migrations)).
Proof.
  intros Hvalid. apply Forall_forall. intros i Hi.
  apply list_elem_of_fmap in Hi as (u & -> & Hu).
  apply range_map_elem in Hu as (k & _ & Hk). eauto.
Qed.

(** C3: when two of the discovered units have the same id, [RunMigrations]
    returns gormigrate's duplicated-id error and the database is as
    it was: no statement has reached it, no transaction was begun and the
    table of applied ids is untouched. *)
Theorem duplicate_id_rejected (order : list string) (w : World) (cfg : DBConfig)
    (out : list string) (migrations : gmap string migration)
    (k1 k2 : string) (u1 u2 : migration) :
  newDatabase cfg = None ->
  getMigrations (fs w) (MigrationsFolderPath cfg) = (out, Ok migrations) ->
  range_order order migrations ->
  k1 <> k2 -> migrations !! k1 = Some u1 -> migrations !! k2 = Some u2 ->
  id u1 = id u2 ->
  exists i,
    RunMigrations order w cfg
    = (mkWorld (fs w) (db w) (stdout w ++ out),
       Error (gormigrate.DuplicatedIDError i)).
Proof.
  intros Hopen Hget Horder Hne E1 E2 Eid.
  unfold RunMigrations. rewrite (setupManager_units _ _ _ _ _ _ _ Hopen Hget E1).
  simpl.
  assert (Hk1 : k1 ∈ order) by (apply (range_order_elem _ _ _ Horder); eauto).
  assert (Hk2 : k2 ∈ order) by (apply (range_order_elem _ _ _ Horder); eauto).
  destruct (Migrate_cases (range_map order migrations) (db w))
    as [[_ [i ->]]|[Hnd _]].
  - apply range_map_valid. eapply getMigrations_ids_valid, Hget.
  - intros Hnil. assert (Hin : u1 ∈ range_map order migrations)
      by (apply range_map_elem; eauto).
    rewrite Hnil in Hin. inversion Hin.
  - exists i. reflexivity.
  - exfalso. apply Hne. eapply range_map_NoDup_ids; eauto.
Qed.

(** The loop without target appends the ids it applies, in the order of
    the slice. *)
Lemma runMigrations_ledger (units : list migration) (db db' : Database)
    (rows : list string) :
  ledger db = Some rows ->
  NoDup (rows ++ map id units) ->
  Forall valid_id (map id units) ->
  gormigrate.runMigrations (map setupMigration units) "" db = (db', None) ->
  ledger db' = Some (rows ++ map id units).
Proof.
  revert db rows. induction units as [|u units IH]; intros db rows Hrows Hnd Hvalid.
  - simpl. intros [= <-]. now rewrite app_nil_r.
  - simpl in Hvalid. apply Forall_cons in Hvalid as [[Hu _] Hvalid].
    simpl. unfold gormigrate.runMigration. simpl.
    apply String.eqb_neq in Hu. rewrite Hu.
    unfold gormigrate.migrationRan. rewrite Hrows.
    assert (Hfresh : id u ∉ rows).
    { intros Hin. simpl in Hnd. apply NoDup_app in Hnd as (_ & Hdisj & _).
      apply (Hdisj _ Hin). left. }
    rewrite bool_decide_eq_false_2 by assumption.
    destruct (in_transaction (migrationSQL u) db) as [db1 [e|]] eqn:Htx;
      [discriminate|].
    apply in_transaction_ledger in Htx as [Hl _].
    intros Hrun. apply (IH _ (rows ++ [id u])) in Hrun.
    + now rewrite <- app_assoc in Hrun.
    + simpl. now rewrite Hl, Hrows.
    + now rewrite <- app_assoc.
    + assumption.
Qed.

(** The target of [Migrate], the id of the last unit, stops the loop where
    it ends anyway. *)
Lemma runMigrations_target (units : list migration) (t : migration) (db : Database) :
  NoDup (map id units) -> Forall valid_id (map id units) ->
  last units = Some t ->
  gormigrate.runMigrations (map setupMigration units) (id t) db
  = gormigrate.runMigrations (map setupMigration units) "" db.
Proof.
  intros Hnd Hvalid Hlast. apply last_Some in Hlast as [init ->].
  rewrite map_app, !runMigrations_app.
  - destruct (gormigrate.runMigrations _ "" db) as [db1 [e|]]; [reflexivity|].
    simpl. destruct (gormigrate.runMigration (setupMigration t) db1) as [db2 [e|]];
      [reflexivity|]. now destruct (_ && _).
  - rewrite ID_setupMigration. intros Hin.
    rewrite Forall_forall in Hvalid. destruct (Hvalid "") as [Hne _]; [|now apply Hne].
    rewrite map_app. apply elem_of_app. now left.
  - rewrite ID_setupMigration. intros Hin.
    rewrite map_app in Hnd. apply NoDup_app in Hnd as (_ & Hdisj & _).
    apply (Hdisj _ Hin). left.
Qed.

(** C1: on a database without applied ids, a run of [RunMigrations] that
    succeeds leaves the ids in the table in the order in which they were
    applied, and this is the order in which the [range] over the Go map
    visited the units: nothing sorts them. *)
Theorem RunMigrations_applies_in_range_order (order : list string) (w : World)
    (cfg : DBConfig) (out : list string) (migrations : gmap string migration) :
  newDatabase cfg = None ->
  getMigrations (fs w) (MigrationsFolderPath cfg) = (out, Ok migrations) ->
  range_order order migrations ->
  ledger (db w) = None \/ ledger (db w) = Some [] ->
  snd (RunMigrations order w cfg) = Ok tt ->
  ledger (db (fst (RunMigrations order w cfg)))
  = Some (map id (range_map order migrations)).
Proof.
  intros Hopen Hget Horder Hfresh.
  destruct (decide (migrations = ∅)) as [->|Hne].
  { unfold RunMigrations, setupManager. rewrite Hopen, Hget. discriminate. }
  apply map_choose in Hne as (k & u & Hk).
  unfold RunMigrations. rewrite (setupManager_units _ _ _ _ _ _ _ Hopen Hget Hk).
  simpl.
  assert (Hvalid : Forall valid_id (map id (range_map order migrations))).
  { apply range_map_valid. eapply getMigrations_ids_valid, Hget. }
  destruct (Migrate_cases (range_map order migrations) (db w) Hvalid)
    as [[_ [i ->]]|[Hnd (t & Hlast & ->)]].
  - intros Hnil. assert (Hin : u ∈ range_map order migrations).
    { apply range_map_elem. exists k. split; [|exact Hk].
      apply (range_order_elem _ _ _ Horder). eauto. }
    rewrite Hnil in Hin. inversion Hin.
  - discriminate.
  - rewrite runMigrations_target by assumption.
    destruct (gormigrate.runMigrations _ "" _) as [db' [e|]] eqn:Hrun; [discriminate|].
    intros _. simpl.
    apply (runMigrations_ledger _ _ _ []) in Hrun;
      [exact Hrun | | exact Hnd | exact Hvalid].
    unfold gormigrate.createMigrationTableIfNotExists.
    destruct Hfresh as [E|E]; rewrite E; [reflexivity | exact E].
Qed.

(** [RollbackLast] undoes the last unit of the slice when it has run. *)
Lemma RollbackLast_last_of_slice (ms : list gormigrate.Migration)
    (t : gormigrate.Migration) (db : Database) :
  last ms = Some t ->
  gormigrate.migrationRan db (gormigrate.ID t) = Ok true ->
  gormigrate.RollbackLast ms db = gormigrate.rollbackMigration t db.
Proof.
  intros Hlast Hran. apply last_Some in Hlast as [init ->].
  unfold gormigrate.RollbackLast. rewrite rev_app_distr. simpl. rewrite Hran.
  now destruct init.
Qed.

(** C4, amended: when the database answers and no unit is discovered in
    the folder, complete or not, as in an empty folder, [RunMigrations]
    returns the error "no migrations to run" and neither the database,
    with its table of applied ids, nor the files have changed. *)
Theorem RunMigrations_nothing_to_run (order : list string) (w : World) (cfg : DBConfig) :
  newDatabase cfg = None ->
  (forall out,
     getMigrations (fs w) (MigrationsFolderPath cfg) = (out, Ok ∅) ->
     RunMigrations order w cfg
     = (mkWorld (fs w) (db w) (stdout w ++ out), Error "no migrations to run"))
  /\ (os.ReadDir (fs w) (MigrationsFolderPath cfg) = Ok [] ->
      RunMigrations order w cfg
      = (mkWorld (fs w) (db w) (stdout w ++ []), Error "no migrations to run")).
Proof.
  intros Hopen.
  assert (Hzero : forall out,
    getMigrations (fs w) (MigrationsFolderPath cfg) = (out, Ok ∅) ->
    RunMigrations order w cfg
    = (mkWorld (fs w) (db w) (stdout w ++ out), Error "no migrations to run")).
  { intros out Hget. unfold RunMigrations, setupManager. now rewrite Hopen, Hget. }
  split; [exact Hzero|].
  intros Hdir. apply Hzero. unfold getMigrations. now rewrite Hdir.
Qed.

End Run.

(** ** The handler on concrete folders *)

Lemma RunMigrations_applies_in_range_order_witness :
  let order := ["3_c"; "1_a"; "2_b"] in
  range_order order three_map
  /\ ledger (db (fst (RunMigrations order (Mem.world three_folder) (Mem.config "m"))))
     = Some ["3"; "1"; "2"]
  /\ journal (db (fst (RunMigrations order (Mem.world three_folder) (Mem.config "m"))))
     = [Begin; Run "CREATE TABLE c"; Commit; Begin; Run "CREATE TABLE a"; Commit;
        Begin; Run "CREATE TABLE b"; Commit]
  /\ ledger (db (fst (RollbackMigration order three_applied (Mem.config "m"))))
     = Some ["1"; "3"]
  /\ journal (db (fst (RollbackMigration order three_applied (Mem.config "m"))))
     = [Begin; Run "DROP TABLE b"; Commit].
Proof.
  assert (Horder : range_order ["3_c"; "1_a"; "2_b"] three_map).
  { split; by_decide. }
  split; [exact Horder|]. split.
  - rewrite (RunMigrations_applies_in_range_order ["3_c"; "1_a"; "2_b"]
               (Mem.world three_folder) (Mem.config "m") [] three_map).
    + vm_compute. reflexivity.
    + reflexivity.
    + vm_compute. reflexivity.
    + exact Horder.
    + left. reflexivity.
    + vm_compute. reflexivity.
  - repeat split; vm_compute; reflexivity.
Defined.

Lemma duplicate_id_rejected_witness :
  (exists i,
     RunMigrations ["1700000000_test1"; "1700000000_test0"] (Mem.world twin_folder)
       (Mem.config "m")
     = (Mem.world twin_folder, Error (gormigrate.DuplicatedIDError i)))
  /\ snd (RunMigrations ["1700000000_test1"; "1700000000_test0"] (Mem.world twin_folder)
            (Mem.config "m"))
     = Error (gormigrate.DuplicatedIDError "1700000000").
Proof.
  split; [|vm_compute; reflexivity].
  apply (duplicate_id_rejected ["1700000000_test1"; "1700000000_test0"]
           (Mem.world twin_folder) (Mem.config "m") [] twin_map
           "1700000000_test0" "1700000000_test1"
           (mkMigration "1700000000" "" header header)
           (mkMigration "1700000000" "" header header)).
  - reflexivity.
  - vm_compute. reflexivity.
  - split; by_decide.
  - discriminate.
  - vm_compute. reflexivity.
  - vm_compute. reflexivity.
  - reflexivity.
Defined.

(** C4 fails as stated: a folder with an apply file and no rollback file
    has no complete unit, and [RunMigrations] runs the unit with its empty
    rollback half and records its id. *)
Lemma RunMigrations_incomplete_unit_counterexample :
  complete_keys (classify lone_folder "m") [mkDirEntry "1_a_up.sql" false] = []
  /\ RunMigrations ["1_a"] (Mem.world lone_folder) (Mem.config "m")
     = (mkWorld lone_folder
          (Mem.database ["CREATE TABLE a"] (Some ["1"])
             [Begin; Run "CREATE TABLE a"; Commit])
          ["Migrations successful" +:+ strings.nl],
        Ok tt)
  /\ ledger (db (Mem.world lone_folder)) = None.
Proof. repeat split; vm_compute; reflexivity. Qed.

Lemma RunMigrations_nothing_to_run_witness :
  RunMigrations [] Mem.fresh (Mem.config "m")
  = (Mem.fresh, Error "no migrations to run").
Proof.
  destruct (RunMigrations_nothing_to_run [] Mem.fresh (Mem.config "m") eq_refl)
    as [_ Hempty].
  rewrite Hempty; [reflexivity | vm_compute; reflexivity].
Defined.

(** * Further properties of the handler *)

(** ** Runs over a table that already holds ids *)

Section Ledger.
Context `{Orm}.

Lemma runMigration_ran (u : migration) (db : Database) :
  id u <> "" ->
  gormigrate.migrationRan db (id u) = Ok true ->
  gormigrate.runMigration (setupMigration u) db = (db, None).
Proof.
  intros Hid Hran. unfold gormigrate.runMigration. simpl.
  apply String.eqb_neq in Hid. now rewrite Hid, Hran.
Qed.

Lemma migrationRan_rows (db : Database) (rows : list string) (i : string) :
  ledger db = Some rows ->
  gormigrate.migrationRan db i = Ok (bool_decide (i ∈ rows)).
Proof. intros Hrows. unfold gormigrate.migrationRan. now rewrite Hrows. Qed.

Lemma createTable_ledger (db : Database) :
  ledger (gormigrate.createMigrationTableIfNotExists db) = Some (default [] (ledger db)).
Proof.
  unfold gormigrate.createMigrationTableIfNotExists.
  destruct (ledger db) eqn:E; simpl; [exact E | reflexivity].
Qed.

(** Whatever the loop does, the rows of the table stay, in their order,
    and ids of the units are only added after them. *)
Lemma runMigrations_appends (units : list migration) (target : string)
    (db db' : Database) (err : option string) (rows : list string) :
  ledger db = Some rows ->
  gormigrate.runMigrations (map setupMigration units) target db = (db', err) ->
  exists new, ledger db' = Some (rows ++ new)
              /\ Forall (fun i => i ∈ map id units) new.
Proof.
  revert db rows. induction units as [|u units IH]; intros db rows Hrows; simpl.
  - intros [= <- _]. exists []. rewrite app_nil_r. split; [exact Hrows | constructor].
  - assert (Hweak : forall new, Forall (fun i => i ∈ map id units) new ->
                      Forall (fun i => i ∈ id u :: map id units) new).
    { intros new Hn. eapply Forall_impl; [exact Hn|]. intros i Hi. now right. }
    unfold gormigrate.runMigration. simpl.
    destruct (String.eqb (id u) "").
    { intros [= <- _]. exists []. rewrite app_nil_r. split; [exact Hrows | constructor]. }
    rewrite (migrationRan_rows _ _ _ Hrows).
    destruct (bool_decide (id u ∈ rows)).
    + destruct (_ && _).
      * intros [= <- _]. exists []. rewrite app_nil_r. split; [exact Hrows | constructor].
      * intros Hrun. destruct (IH _ _ Hrows Hrun) as (new & Hl & Hsub).
        exists new. split; [exact Hl | now apply Hweak].
    + destruct (in_transaction (migrationSQL u) db) as [db1 [e|]] eqn:Htx;
        apply in_transaction_ledger in Htx as [Hl1 _].
      * intros [= <- _]. exists []. rewrite app_nil_r, Hl1.
        split; [exact Hrows | constructor].
      * assert (Hins : ledger (gormigrate.insertMigration db1 (id u))
                       = Some (rows ++ [id u])) by (simpl; now rewrite Hl1, Hrows).
        destruct (_ && _).
        -- intros [= <- _]. exists [id u]. split; [exact Hins|].
           constructor; [left | constructor].
        -- intros Hrun. destruct (IH _ _ Hins Hrun) as (new & Hl & Hsub).
           exists (id u :: new). rewrite <- app_assoc in Hl. split; [exact Hl|].
           constructor; [left | now apply Hweak].
Qed.

Lemma Migrate_appends (units : list migration) (db db' : Database) (err : option string) :
  gormigrate.Migrate (map setupMigration units) db = (db', err) ->
  exists new,
    default [] (ledger db') = default [] (ledger db) ++ new
    /\ Forall (fun i => i ∈ map id units) new.
Proof.
  assert (Hsame : forall e : option string, (db, e) = (db', err) ->
            exists new, default [] (ledger db') = default [] (ledger db) ++ new
                        /\ Forall (fun i => i ∈ map id units) new).
  { intros e [= <- _]. exists []. rewrite app_nil_r. split; [reflexivity | constructor]. }
  unfold gormigrate.Migrate, gormigrate.migrate.
  destruct (last (map setupMigration units)) as [t|]; [|apply Hsame].
  destruct (map setupMigration units) as [|m ms] eqn:Hms; [apply Hsame|].
  destruct (gormigrate.checkReservedID (m :: ms)); [apply Hsame|].
  destruct (gormigrate.checkDuplicatedID ∅ (m :: ms)); [apply Hsame|].
  destruct (gormigrate.checkIDExist (m :: ms) (gormigrate.ID t)); [apply Hsame|].
  rewrite <- Hms. intros Hrun.
  destruct (runMigrations_appends units _ _ _ _ _ (createTable_ledger db) Hrun)
    as (new & Hl & Hsub).
  exists new. now rewrite Hl.
Qed.

End Ledger.

Section Pending.
Context `{Orm}.

(** The units whose id is in the table are passed over. *)
Lemma runMigrations_all_ran (units : list migration) (target : string) (db : Database)
    (rows : list string) :
  ledger db = Some rows ->
  Forall (fun u => id u <> "" /\ id u ∈ rows) units ->
  gormigrate.runMigrations (map setupMigration units) target db = (db, None).
Proof.
  intros Hrows. induction 1 as [|u units [Hid Hin] _ IH]; [reflexivity|].
  simpl. rewrite runMigration_ran; [|exact Hid|].
  - rewrite IH. now destruct (_ && _).
  - rewrite (migrationRan_rows _ _ _ Hrows). now rewrite bool_decide_eq_true_2.
Qed.

Lemma filter_fresh_snoc (rows ids : list string) (i : string) :
  i ∉ ids ->
  filter (fun j => j ∉ rows ++ [i]) ids = filter (fun j => j ∉ rows) ids.
Proof.
  induction ids as [|j ids IH]; intros Hi; [reflexivity|].
  apply not_elem_of_cons in Hi as [Hne Hi].
  rewrite !filter_cons, IH by assumption.
  destruct (decide (j ∉ rows ++ [i])) as [Hj|Hj], (decide (j ∉ rows)) as [Hj'|Hj'];
    try reflexivity; exfalso.
  - apply Hj'. intros Hin. apply Hj, elem_of_app. now left.
  - apply Hj. intros [Hin|Hin]%elem_of_app; [now apply Hj'|].
    apply list_elem_of_singleton in Hin. congruence.
Qed.

(** A loop that ends without error has added the ids that were not in
    the table, in the order of the slice. *)
Lemma runMigrations_pending (units : list migration) (db db' : Database)
    (rows : list string) :
  ledger db = Some rows ->
  NoDup (map id units) ->
  Forall valid_id (map id units) ->
  gormigrate.runMigrations (map setupMigration units) "" db = (db', None) ->
  ledger db' = Some (rows ++ filter (fun i => i ∉ rows) (map id units)).
Proof.
  revert db rows. induction units as [|u units IH]; intros db rows Hrows Hnd Hvalid.
  - simpl. intros [= <-]. now rewrite app_nil_r.
  - simpl in Hnd, Hvalid. apply NoDup_cons in Hnd as [Hu Hnd].
    apply Forall_cons in Hvalid as [[Hid _] Hvalid].
    simpl. rewrite filter_cons.
    destruct (decide (id u ∉ rows)) as [Hfresh|Hran].
    + unfold gormigrate.runMigration. simpl.
      apply String.eqb_neq in Hid. rewrite Hid, (migrationRan_rows _ _ _ Hrows).
      rewrite bool_decide_eq_false_2 by assumption.
      destruct (in_transaction (migrationSQL u) db) as [db1 [e|]] eqn:Htx;
        [discriminate|].
      apply in_transaction_ledger in Htx as [Hl _].
      intros Hrun. apply (IH _ (rows ++ [id u])) in Hrun; try assumption.
      * rewrite Hrun, filter_fresh_snoc by assumption. now rewrite <- app_assoc.
      * simpl. now rewrite Hl, Hrows.
    + assert (Hin : id u ∈ rows) by (destruct (decide (id u ∈ rows)); tauto).
      rewrite runMigration_ran; [|exact Hid|].
      * now apply IH.
      * rewrite (migrationRan_rows _ _ _ Hrows). now rewrite bool_decide_eq_true_2.
Qed.

(** Keys that hold distinct ids give a slice of distinct ids. *)
Lemma range_map_ids_NoDup (order : list string) (m : gmap string migration) :
  NoDup order ->
  (forall k1 k2 u1 u2, m !! k1 = Some u1 -> m !! k2 = Some u2 ->
                       id u1 = id u2 -> k1 = k2) ->
  NoDup (map id (range_map order m)).
Proof.
  intros Hnd Hinj. induction Hnd as [|k order Hk Hnd IH]; [constructor|].
  unfold range_map in *. simpl. destruct (m !! k) as [u|] eqn:E; [|exact IH].
  simpl. constructor; [|exact IH].
  intros Hin. apply list_elem_of_fmap in Hin as (u' & Eid & Hu').
  apply list_elem_of_omap in Hu' as (k' & Hk' & E').
  apply Hk. now rewrite (Hinj _ _ _ _ E E' Eid).
Qed.

(** What [setupManager] returns, case by case: it changes nothing but the
    standard output. *)
Lemma setupManager_cases (order : list string) (w w' : World) (cfg : DBConfig)
    (r : result (list gormigrate.Migration)) :
  setupManager order w cfg = (w', r) ->
  fs w' = fs w /\ db w' = db w
  /\ forall manager, r = Ok manager ->
       exists out migrations,
         getMigrations (fs w) (MigrationsFolderPath cfg) = (out, Ok migrations)
         /\ migrations <> ∅
         /\ stdout w' = stdout w ++ out
         /\ manager = map setupMigration (range_map order migrations).
Proof.
  unfold setupManager. destruct (newDatabase cfg).
  { intros [= <- <-]. repeat split. discriminate. }
  destruct (getMigrations (fs w) (MigrationsFolderPath cfg)) as [out [m|e|e]].
  - destruct (size m <=? 0)%nat eqn:Hsize.
    + intros [= <- <-]. repeat split. discriminate.
    + intros [= <- <-]. repeat split. intros manager [= <-].
      exists out, m. repeat split. intros ->. rewrite map_size_empty in Hsize.
      discriminate.
  - intros [= <- <-]. repeat split. discriminate.
  - intros [= <- <-]. repeat split. discriminate.
Qed.

Lemma range_map_nonempty {V} (order : list string) (m : gmap string V) :
  range_order order m -> m <> ∅ -> range_map order m <> [].
Proof.
  intros Horder Hne Hnil. apply map_choose in Hne as (k & v & Hk).
  assert (Hin : v ∈ range_map order m).
  { apply range_map_elem. exists k. split; [|exact Hk].
    apply (range_order_elem _ _ _ Horder). eauto. }
  rewrite Hnil in Hin. inversion Hin.
Qed.

(** The last migration that has run, searched from the end of the slice. *)
Lemma getLastRunMigration_found (pre post : list gormigrate.Migration)
    (t : gormigrate.Migration) (db : Database) (rows : list string) :
  ledger db = Some rows ->
  gormigrate.ID t ∈ rows ->
  Forall (fun m => gormigrate.ID m ∉ rows) post ->
  gormigrate.getLastRunMigration (rev (pre ++ t :: post)) db = Ok t.
Proof.
  intros Hrows Ht Hpost. rewrite rev_app_distr. simpl. rewrite <- app_assoc. simpl.
  apply Forall_rev in Hpost. induction Hpost as [|m l Hm _ IH]; simpl.
  - rewrite (migrationRan_rows _ _ _ Hrows). now rewrite bool_decide_eq_true_2.
  - rewrite (migrationRan_rows _ _ _ Hrows). now rewrite bool_decide_eq_false_2.
Qed.

Lemma getLastRunMigration_none (ms : list gormigrate.Migration) (db : Database)
    (rows : list string) :
  ledger db = Some rows ->
  Forall (fun m => gormigrate.ID m ∉ rows) ms ->
  gormigrate.getLastRunMigration ms db = Error gormigrate.ErrNoRunMigration.
Proof.
  intros Hrows. induction 1 as [|m l Hm _ IH]; [reflexivity|].
  simpl. rewrite (migrationRan_rows _ _ _ Hrows). now rewrite bool_decide_eq_false_2.
Qed.

End Pending.

(** ** What a run and a rollback leave behind *)

Section Outcome.
Context `{Orm}.

(** X1: whatever it returns, [RunMigrations] writes no file and removes no
    id: the table of applied ids afterwards is the table before, in its
    order, followed by the ids the run has added. *)
Theorem RunMigrations_only_adds_ids (order : list string) (w : World) (cfg : DBConfig) :
  fs (fst (RunMigrations order w cfg)) = fs w
  /\ exists new,
       default [] (ledger (db (fst (RunMigrations order w cfg))))
       = default [] (ledger (db w)) ++ new.
Proof.
  unfold RunMigrations.
  destruct (setupManager order w cfg) as [w' r] eqn:Hsetup.
  apply setupManager_cases in Hsetup as (Hfs & Hdb & Hok).
  destruct r as [manager|e|e]; simpl.
  - destruct (Hok manager eq_refl) as (out & m & _ & _ & _ & ->).
    destruct (gormigrate.Migrate _ (db w')) as [db' [e|]] eqn:Hrun;
      apply Migrate_appends in Hrun as (new & Hl & _); simpl;
      (split; [exact Hfs|]); exists new; now rewrite Hl, Hdb.
  - split; [exact Hfs|]. exists []. now rewrite app_nil_r, Hdb.
  - split; [exact Hfs|]. exists []. now rewrite app_nil_r, Hdb.
Qed.

(** X2: when every discovered unit is in the table of applied ids
    already, and no two units have the same id, [RunMigrations] succeeds
    without sending anything to the database: no statement is run again. *)
Theorem RunMigrations_all_applied (order : list string) (w : World) (cfg : DBConfig)
    (out : list string) (migrations : gmap string migration) (rows : list string) :
  newDatabase cfg = None ->
  getMigrations (fs w) (MigrationsFolderPath cfg) = (out, Ok migrations) ->
  migrations <> ∅ ->
  range_order order migrations ->
  (forall k1 k2 u1 u2, migrations !! k1 = Some u1 -> migrations !! k2 = Some u2 ->
                       id u1 = id u2 -> k1 = k2) ->
  ledger (db w) = Some rows ->
  (forall k u, migrations !! k = Some u -> id u ∈ rows) ->
  RunMigrations order w cfg
  = (mkWorld (fs w) (db w)
       ((stdout w ++ out) ++ ["Migrations successful" +:+ strings.nl]), Ok tt).
Proof.
  intros Hopen Hget Hne Horder Hinj Hrows Hall.
  destruct (map_choose _ Hne) as (k & u & Hk).
  unfold RunMigrations. rewrite (setupManager_units _ _ _ _ _ _ _ Hopen Hget Hk).
  simpl.
  assert (Hvalid : Forall valid_id (map id (range_map order migrations))).
  { apply range_map_valid. eapply getMigrations_ids_valid, Hget. }
  destruct (Migrate_cases (range_map order migrations) (db w) Hvalid)
    as [[Hdup _]|[Hnd (t & Hlast & ->)]].
  - now apply range_map_nonempty.
  - exfalso. apply Hdup. apply range_map_ids_NoDup; [apply Horder | exact Hinj].
  - unfold gormigrate.createMigrationTableIfNotExists. rewrite Hrows.
    rewrite (runMigrations_all_ran _ _ _ rows); [|exact Hrows|].
    + destruct (db w); reflexivity.
    + apply Forall_forall. intros u' Hu'.
      apply range_map_elem in Hu' as (k' & _ & Hk'). split.
      * apply (getMigrations_ids_valid _ _ _ _ Hget k' u' Hk').
      * eauto.
Qed.

(** X3: a run of [RunMigrations] that succeeds has added to the table the
    ids of the units that were not in it, in the order of the slice, after
    the ids it held. *)
Theorem RunMigrations_applies_pending (order : list string) (w : World) (cfg : DBConfig)
    (out : list string) (migrations : gmap string migration) :
  newDatabase cfg = None ->
  getMigrations (fs w) (MigrationsFolderPath cfg) = (out, Ok migrations) ->
  range_order order migrations ->
  snd (RunMigrations order w cfg) = Ok tt ->
  let rows := default [] (ledger (db w)) in
  ledger (db (fst (RunMigrations order w cfg)))
  = Some (rows ++ filter (fun i => i ∉ rows) (map id (range_map order migrations))).
Proof.
  intros Hopen Hget Horder.
  destruct (decide (migrations = ∅)) as [->|Hne].
  { unfold RunMigrations, setupManager. rewrite Hopen, Hget. discriminate. }
  destruct (map_choose _ Hne) as (k & u & Hk).
  unfold RunMigrations. rewrite (setupManager_units _ _ _ _ _ _ _ Hopen Hget Hk).
  simpl.
  assert (Hvalid : Forall valid_id (map id (range_map order migrations))).
  { apply range_map_valid. eapply getMigrations_ids_valid, Hget. }
  destruct (Migrate_cases (range_map order migrations) (db w) Hvalid)
    as [[_ [i ->]]|[Hnd (t & Hlast & ->)]].
  - now apply range_map_nonempty.
  - discriminate.
  - rewrite runMigrations_target by assumption.
    destruct (gormigrate.runMigrations _ "" _) as [db' [e|]] eqn:Hrun; [discriminate|].
    intros _. simpl.
    apply (runMigrations_pending _ _ _ _ (createTable_ledger (db w))) in Hrun;
      assumption.
Qed.

(** X4: [RollbackMigration] undoes the last unit of the slice that has
    run: its rollback batch goes through a transaction of its own and its
    id leaves the table; the other ids stay. *)
Theorem RollbackMigration_undoes_last_run (order : list string) (w : World)
    (cfg : DBConfig) (out : list string) (migrations : gmap string migration)
    (rows : list string) (pre post : list migration) (t : migration) (s : Schema) :
  newDatabase cfg = None ->
  getMigrations (fs w) (MigrationsFolderPath cfg) = (out, Ok migrations) ->
  range_map order migrations = pre ++ t :: post ->
  ledger (db w) = Some rows ->
  id t ∈ rows ->
  Forall (fun u => id u ∉ rows) post ->
  Exec (rollbackSQL t) (schema (db w)) = inr s ->
  CommitError s = None ->
  RollbackMigration order w cfg
  = (mkWorld (fs w)
       (mkDatabase s (Some (filter (fun row => row <> id t) rows))
          (journal (db w) ++ [Begin; Run (rollbackSQL t); Commit]))
       ((stdout w ++ out) ++ ["Rollback successful" +:+ strings.nl]), Ok tt).
Proof.
  intros Hopen Hget Hslice Hrows Ht Hpost Hexec Hcommit.
  assert (Hin : t ∈ range_map order migrations).
  { rewrite Hslice. apply elem_of_app. right. left. }
  apply range_map_elem in Hin as (k & _ & Hk).
  unfold RollbackMigration. rewrite (setupManager_units _ _ _ _ _ _ _ Hopen Hget Hk).
  simpl. rewrite Hslice, map_app. simpl.
  unfold gormigrate.RollbackLast.
  rewrite (getLastRunMigration_found _ _ _ _ rows); try assumption.
  - unfold gormigrate.rollbackMigration. simpl.
    rewrite (in_transaction_commits _ _ _ Hexec Hcommit). simpl. rewrite Hrows.
    now destruct (map setupMigration pre).
  - apply Forall_forall. intros m Hm.
    apply list_elem_of_fmap in Hm as (u & -> & Hu). simpl.
    rewrite Forall_forall in Hpost. now apply Hpost.
Qed.

(** X5: when the rollback batch of that unit fails, [RollbackMigration]
    returns the error of the database, the transaction is rolled back and
    the id stays in the table. *)
Theorem RollbackMigration_failure_keeps_id (order : list string) (w : World)
    (cfg : DBConfig) (out : list string) (migrations : gmap string migration)
    (rows : list string) (pre post : list migration) (t : migration) (e : string) :
  newDatabase cfg = None ->
  getMigrations (fs w) (MigrationsFolderPath cfg) = (out, Ok migrations) ->
  range_map order migrations = pre ++ t :: post ->
  ledger (db w) = Some rows ->
  id t ∈ rows ->
  Forall (fun u => id u ∉ rows) post ->
  Exec (rollbackSQL t) (schema (db w)) = inl e ->
  RollbackMigration order w cfg
  = (mkWorld (fs w)
       (mkDatabase (schema (db w)) (Some rows)
          (journal (db w) ++ [Begin; Run (rollbackSQL t); Rollback]))
       (stdout w ++ out), Error e).
Proof.
  intros Hopen Hget Hslice Hrows Ht Hpost Hexec.
  assert (Hin : t ∈ range_map order migrations).
  { rewrite Hslice. apply elem_of_app. right. left. }
  apply range_map_elem in Hin as (k & _ & Hk).
  unfold RollbackMigration. rewrite (setupManager_units _ _ _ _ _ _ _ Hopen Hget Hk).
  simpl. rewrite Hslice, map_app. simpl.
  unfold gormigrate.RollbackLast.
  rewrite (getLastRunMigration_found _ _ _ _ rows); try assumption.
  - unfold gormigrate.rollbackMigration. simpl.
    rewrite (in_transaction_fails _ _ _ Hexec). unfold rolled_back. rewrite Hrows.
    now destruct (map setupMigration pre).
  - apply Forall_forall. intros m Hm.
    apply list_elem_of_fmap in Hm as (u & -> & Hu). simpl.
    rewrite Forall_forall in Hpost. now apply Hpost.
Qed.

(** X6: when none of the discovered units is in the table of applied
    ids, [RollbackMigration] returns gormigrate's error for a rollback
    without a migration that has run, and the database is as it was. *)
Theorem RollbackMigration_nothing_applied (order : list string) (w : World)
    (cfg : DBConfig) (out : list string) (migrations : gmap string migration)
    (rows : list string) :
  newDatabase cfg = None ->
  getMigrations (fs w) (MigrationsFolderPath cfg) = (out, Ok migrations) ->
  migrations <> ∅ ->
  range_order order migrations ->
  ledger (db w) = Some rows ->
  (forall k u, migrations !! k = Some u -> id u ∉ rows) ->
  RollbackMigration order w cfg
  = (mkWorld (fs w) (db w) (stdout w ++ out),
     Error "gormigrate: Could not find last run migration").
Proof.
  intros Hopen Hget Hne Horder Hrows Hnone.
  destruct (map_choose _ Hne) as (k & u & Hk).
  unfold RollbackMigration. rewrite (setupManager_units _ _ _ _ _ _ _ Hopen Hget Hk).
  simpl. unfold gormigrate.RollbackLast.
  rewrite (getLastRunMigration_none _ _ rows); [|exact Hrows|].
  - pose proof (range_map_nonempty _ _ Horder Hne) as Hslice.
    destruct (range_map order migrations); [contradiction|].
    simpl. now destruct (db w).
  - apply Forall_rev, Forall_forall. intros m Hm.
    apply list_elem_of_fmap in Hm as (u' & -> & Hu').
    apply range_map_elem in Hu' as (k' & _ & Hk'). simpl. eauto.
Qed.

(** X7: when the folder of the migrations does not exist, [RunMigrations]
    and [RollbackMigration] return the error of [os.ReadDir], which names
    the path, and change nothing. *)
Theorem missing_folder_is_reported (order : list string) (w : World) (cfg : DBConfig) :
  newDatabase cfg = None ->
  fs w !! MigrationsFolderPath cfg = None ->
  let err := "open " +:+ MigrationsFolderPath cfg +:+ ": no such file or directory" in
  RunMigrations order w cfg = (mkWorld (fs w) (db w) (stdout w ++ []), Error err)
  /\ RollbackMigration order w cfg = (mkWorld (fs w) (db w) (stdout w ++ []), Error err).
Proof.
  intros Hopen Hmissing.
  unfold RunMigrations, RollbackMigration, setupManager, getMigrations, os.ReadDir.
  rewrite Hopen, Hmissing. split; reflexivity.
Qed.

End Outcome.

(** ** What discovery returns *)

Lemma side_store (m : gmap string migration) (key i : string) (up : bool) (c : string)
    (k : string) (sd : bool) :
  match store m key i up c !! k with Some u => side u sd | None => "" end
  = if String.eqb key k && Bool.eqb up sd then c
    else match m !! k with Some u => side u sd | None => "" end.
Proof.
  unfold store. destruct (String.eqb_spec key k) as [->|Hne]; simpl.
  - rewrite lookup_insert_eq. destruct (m !! k) as [u|]; destruct up, sd; reflexivity.
  - now rewrite lookup_insert_ne.
Qed.

Lemma fold_pair_step_last (kind : DirEntry -> entry_kind) (files : list DirEntry)
    (m0 m : gmap string migration) (k : string) (sd : bool) :
  fold_left (pair_step kind) files (Ok m0) = Ok m ->
  match m !! k with Some u => side u sd | None => "" end
  = default (match m0 !! k with Some u => side u sd | None => "" end)
      (last_content kind files k sd).
Proof.
  revert m0. induction files as [|f files IH]; intros m0 Hm.
  - now injection Hm as <-.
  - simpl in Hm |- *.
    destruct (kind f) as [| | |key i up c] eqn:E; simpl in Hm.
    + rewrite (IH _ Hm). now destruct (last_content kind files k sd).
    + rewrite (IH _ Hm). now destruct (last_content kind files k sd).
    + rewrite fold_pair_step_stuck in Hm by reflexivity. discriminate.
    + rewrite (IH _ Hm), side_store.
      destruct (last_content kind files k sd); [reflexivity|].
      now destruct (String.eqb key k && Bool.eqb up sd).
Qed.

Lemma fold_pair_step_dom (kind : DirEntry -> entry_kind) (files : list DirEntry)
    (m0 m : gmap string migration) (k : string) :
  fold_left (pair_step kind) files (Ok m0) = Ok m ->
  is_Some (m !! k) <->
  is_Some (m0 !! k) \/ exists f i up c, f ∈ files /\ kind f = Artifact k i up c.
Proof.
  revert m0. induction files as [|f files IH]; intros m0 Hm.
  - injection Hm as <-. split; [now left|].
    intros [Hk|(f & i & up & c & Hf & _)]; [exact Hk | inversion Hf].
  - simpl in Hm.
    assert (Hskip : fold_left (pair_step kind) files (Ok m0) = Ok m ->
              (forall i up c, kind f <> Artifact k i up c) ->
              is_Some (m !! k) <->
              is_Some (m0 !! k)
              \/ exists g i up c, g ∈ f :: files /\ kind g = Artifact k i up c).
    { intros Hm' Hnot. rewrite (IH _ Hm'). split.
      - intros [Hk|(g & i & up & c & Hg & Eg)]; [now left|].
        right. exists g, i, up, c. split; [now right | exact Eg].
      - intros [Hk|(g & i & up & c & Hg & Eg)]; [now left|].
        apply elem_of_cons in Hg as [->|Hg]; [now destruct (Hnot i up c)|].
        right. exists g, i, up, c. now split. }
    destruct (kind f) as [| | |key i up c] eqn:E; simpl in Hm.
    + apply Hskip; [exact Hm | discriminate].
    + apply Hskip; [exact Hm | discriminate].
    + rewrite fold_pair_step_stuck in Hm by reflexivity. discriminate.
    + rewrite (IH _ Hm). unfold store.
      destruct (decide (key = k)) as [->|Hne].
      * rewrite lookup_insert_eq. split.
        -- intros _. right. exists f, i, up, c. split; [left | exact E].
        -- intros _. left. eauto.
      * rewrite lookup_insert_ne by assumption. split.
        -- intros [Hk|(g & i' & up' & c' & Hg & Eg)]; [now left|].
           right. exists g, i', up', c'. split; [now right | exact Eg].
        -- intros [Hk|(g & i' & up' & c' & Hg & Eg)]; [now left|].
           apply elem_of_cons in Hg as [->|Hg]; [congruence|].
           right. exists g, i', up', c'. now split.
Qed.

(** X8: each side of a discovered unit holds the content of the last file
    of the listing that has the key and the side of it; a side without a
    file is empty, so that a unit with one file alone is discovered with
    its other half empty. *)
Theorem getMigrations_last_file_wins (fs : gmap string node) (path : string)
    (files : list DirEntry) (m : gmap string migration) (k : string) (u : migration)
    (up : bool) :
  os.ReadDir fs path = Ok files ->
  snd (getMigrations fs path) = Ok m ->
  m !! k = Some u ->
  side u up = default "" (last_content (classify fs path) files k up).
Proof.
  intros Hdir Hm Hk. rewrite (getMigrations_fold _ _ _ Hdir) in Hm.
  pose proof (fold_pair_step_last _ _ _ _ k up Hm) as Hlast.
  now rewrite Hk, lookup_empty in Hlast.
Qed.

(** X9: the keys of the map are the keys of the artifacts of the listing:
    the first two tokens of the name of a readable file that matches one
    of the two filters. *)
Theorem getMigrations_keys (fs : gmap string node) (path : string)
    (files : list DirEntry) (m : gmap string migration) (k : string) :
  os.ReadDir fs path = Ok files ->
  snd (getMigrations fs path) = Ok m ->
  is_Some (m !! k) <->
  exists f content,
    f ∈ files /\ IsDir f = false
    /\ os.ReadFile fs (path +:+ "/" +:+ Name f) = Ok content
    /\ (regexp.MatchString migrationsFilter (Name f) = true
        \/ regexp.MatchString rollbackFilter (Name f) = true)
    /\ k = strings.Join (take 2 (strings.Split (Name f) "_")) "_".
Proof.
  intros Hdir Hm. rewrite (getMigrations_fold _ _ _ Hdir) in Hm.
  rewrite (fold_pair_step_dom _ _ _ _ k Hm). rewrite lookup_empty. split.
  - intros [[x Hx]|(f & i & up & c & Hf & E)]; [discriminate|].
    exists f, c. split; [exact Hf|]. revert E. unfold classify, slice_to.
    destruct (IsDir f); [discriminate|].
    destruct (os.ReadFile fs _) as [content| |]; try discriminate.
    destruct (2 <=? _)%nat; [|discriminate].
    destruct (regexp.MatchString migrationsFilter _) eqn:Hup;
      [|destruct (regexp.MatchString rollbackFilter _) eqn:Hdown; [|discriminate]];
      intros [= <- _ _ <-]; auto.
  - intros (f & content & Hf & Hreg & Hread & Hmatch & ->). right.
    destruct (classify fs path f) as [| | |key i up c] eqn:E.
    4:{ exists f, i, up, c. split; [exact Hf|]. revert E. unfold classify, slice_to.
        rewrite Hreg, Hread. destruct (2 <=? _)%nat; [|discriminate].
        destruct (regexp.MatchString migrationsFilter _);
          [|destruct (regexp.MatchString rollbackFilter _); [|discriminate]];
          now intros [= <- <- <- <-]. }
    + exfalso. revert E. unfold classify, slice_to. rewrite Hreg, Hread.
      destruct (2 <=? _)%nat; [|discriminate].
      destruct Hmatch as [-> | ->]; [discriminate|].
      destruct (regexp.MatchString migrationsFilter _); discriminate.
    + exfalso. revert E. unfold classify. rewrite Hreg, Hread.
      destruct (slice_to 2 _); [|discriminate].
      destruct (regexp.MatchString migrationsFilter _); [discriminate|].
      destruct (regexp.MatchString rollbackFilter _); discriminate.
    + exfalso. rewrite (fold_pair_step_malformed _ _ f) in Hm; auto. discriminate.
Qed.

Lemma classify_id_of_key fs path f key i up c :
  classify fs path f = Artifact key i up c -> i = hd "" (strings.Split key "_").
Proof.
  unfold classify, slice_to.
  destruct (IsDir f); [discriminate|].
  destruct (os.ReadFile _ _); try discriminate.
  destruct (2 <=? length (strings.Split (Name f) "_"))%nat eqn:Hlen; [|discriminate].
  apply Nat.leb_le in Hlen.
  destruct (regexp.MatchString migrationsFilter _);
    [|destruct (regexp.MatchString rollbackFilter _); [|discriminate]];
    intros [= <- <- _ _]; now rewrite Split_hd_Join.
Qed.

(** What holds of every stored unit once it holds of the units stored for
    each artifact. *)
Lemma fold_pair_step_units (kind : DirEntry -> entry_kind)
    (P : string -> migration -> Prop) (files : list DirEntry)
    (m0 m : gmap string migration) :
  (forall f key i up c found,
     kind f = Artifact key i up c ->
     found = zero_migration \/ P key found ->
     P key (if up then set_migrationSQL (set_id found i) c
            else set_rollbackSQL (set_id found i) c)) ->
  (forall k u, m0 !! k = Some u -> P k u) ->
  fold_left (pair_step kind) files (Ok m0) = Ok m ->
  forall k u, m !! k = Some u -> P k u.
Proof.
  intros Hstore. revert m0. induction files as [|f files IH]; intros m0 H0 Hm.
  - now injection Hm as <-.
  - simpl in Hm. destruct (kind f) as [| | |key i up c] eqn:E; simpl in Hm.
    + eapply IH; eauto.
    + eapply IH; eauto.
    + rewrite fold_pair_step_stuck in Hm by reflexivity. discriminate.
    + eapply IH; [|exact Hm]. intros k u. unfold store.
      destruct (decide (key = k)) as [->|Hne].
      * rewrite lookup_insert_eq. intros [= <-]. apply (Hstore f); [exact E|].
        destruct (m0 !! k) as [found|] eqn:Ek; simpl; [right; eauto | now left].
      * rewrite lookup_insert_ne by assumption. apply H0.
Qed.

(** X10: every discovered unit has an id that starts with a digit and is
    the part of its key before the first underscore, and an empty name:
    discovery never fills [name]. *)
Theorem getMigrations_unit_shape (fs : gmap string node) (path : string)
    (m : gmap string migration) (k : string) (u : migration) :
  snd (getMigrations fs path) = Ok m ->
  m !! k = Some u ->
  digit_led (id u) /\ id u = hd "" (strings.Split k "_") /\ name u = "".
Proof.
  unfold getMigrations.
  destruct (os.ReadDir fs path) as [files| |]; try discriminate.
  rewrite range_files_fold. intros Hm.
  apply (fold_pair_step_units (classify fs path)
           (fun k u => digit_led (id u) /\ id u = hd "" (strings.Split k "_")
                       /\ name u = "") files ∅ m); [| |exact Hm].
  - intros f key i up c found E Hfound.
    assert (Hname : name found = "").
    { destruct Hfound as [->|(_ & _ & Hn)]; [reflexivity | exact Hn]. }
    pose proof (classify_digit_led _ _ _ _ _ _ _ E) as Hd.
    pose proof (classify_id_of_key _ _ _ _ _ _ _ E) as Hk.
    destruct up; simpl; auto.
  - intros k' u' Hk'. rewrite lookup_empty in Hk'. discriminate.
Qed.

(** X11: [getMigrations] returns a map, without a panic, as soon as the
    name of every readable regular file of the folder has an underscore. *)
Theorem getMigrations_returns (fs : gmap string node) (path : string)
    (files : list DirEntry) :
  os.ReadDir fs path = Ok files ->
  (forall f content,
     f ∈ files -> IsDir f = false ->
     os.ReadFile fs (path +:+ "/" +:+ Name f) = Ok content ->
     2 <= length (strings.Split (Name f) "_")) ->
  exists m, snd (getMigrations fs path) = Ok m.
Proof.
  intros Hdir Hall. rewrite (getMigrations_fold _ _ _ Hdir). clear Hdir.
  generalize (∅ : gmap string migration).
  induction files as [|f files IH]; intros m0; [eauto|].
  simpl.
  assert (Hrest : forall g content,
            g ∈ files -> IsDir g = false ->
            os.ReadFile fs (path +:+ "/" +:+ Name g) = Ok content ->
            2 <= length (strings.Split (Name g) "_")).
  { intros g content Hg. apply Hall. now right. }
  destruct (classify fs path f) as [| | |key i up c] eqn:E; simpl;
    try (apply IH; exact Hrest).
  clear IH. exfalso. revert E. unfold classify, slice_to.
  destruct (IsDir f) eqn:Hreg; [discriminate|].
  destruct (os.ReadFile fs _) as [content| |] eqn:Hread; try discriminate.
  specialize (Hall f content ltac:(left) Hreg Hread).
  apply Nat.leb_le in Hall. rewrite Hall.
  destruct (regexp.MatchString migrationsFilter _); [discriminate|].
  destruct (regexp.MatchString rollbackFilter _); discriminate.
Qed.

Lemma range_files_warnings (fs : gmap string node) (path : string)
    (files : list DirEntry) (out : list string) (m0 m : gmap string migration) :
  snd (range_files fs path files out m0) = Ok m ->
  fst (range_files fs path files out m0)
  = out ++ omap (unreadable_warning fs path) files.
Proof.
  revert out m0. induction files as [|f files IH]; intros out m0; simpl.
  - intros _. now rewrite app_nil_r.
  - unfold visit_file, unreadable_warning.
    destruct (IsDir f); [apply IH|].
    destruct (os.ReadFile fs _) as [content|e|e].
    + destruct (slice_to 2 _); [|discriminate].
      destruct (regexp.MatchString migrationsFilter _); [apply IH|].
      destruct (regexp.MatchString rollbackFilter _); apply IH.
    + intros Hm. rewrite (IH _ _ Hm). now rewrite <- app_assoc.
    + intros Hm. rewrite (IH _ _ Hm). now rewrite <- app_assoc.
Qed.

(** X12: when [getMigrations] returns a map it has printed one line of
    warning for each regular file of the listing that it could not read,
    in the order of the listing, and nothing else; these files are left
    out and the others are still discovered. *)
Theorem getMigrations_warns_once_per_unreadable (fs : gmap string node) (path : string)
    (files : list DirEntry) (m : gmap string migration) :
  os.ReadDir fs path = Ok files ->
  snd (getMigrations fs path) = Ok m ->
  fst (getMigrations fs path) = omap (unreadable_warning fs path) files.
Proof.
  unfold getMigrations. intros ->. apply range_files_warnings.
Qed.

(** ** The revision that keys by id *)

(** X13: in the revision that keys by id, [getMigrations] returns a map
    for every folder that can be listed, whatever the names of its files:
    it has no slice to take and cannot panic. *)
Theorem getMigrations_by_id_returns (fs : gmap string node) (path : string)
    (files : list DirEntry) :
  os.ReadDir fs path = Ok files ->
  exists m, snd (ById.getMigrations fs path) = Ok m.
Proof.
  intros Hdir. rewrite (getMigrations_by_id_fold _ _ _ Hdir). clear Hdir.
  generalize (∅ : gmap string migration).
  induction files as [|f files IH]; intros m0; [eauto|].
  simpl. destruct (classify_by_id fs path f) as [| | |key i up c] eqn:E; simpl;
    try apply IH.
  exfalso. revert E. unfold classify_by_id.
  destruct (IsDir f); [discriminate|].
  destruct (os.ReadFile fs _); try discriminate.
  destruct (regexp.MatchString migrationsFilter _); [discriminate|].
  destruct (regexp.MatchString rollbackFilter _); discriminate.
Qed.

(** X14: in the revision that keys by id, two keys of the map never hold
    units with the same id, whatever the folder: files with one id and
    different names are merged into one unit. *)
Theorem getMigrations_by_id_distinct_ids (fs : gmap string node) (path : string)
    (m : gmap string migration) (k1 k2 : string) (u1 u2 : migration) :
  snd (ById.getMigrations fs path) = Ok m ->
  m !! k1 = Some u1 -> m !! k2 = Some u2 ->
  id u1 = id u2 -> k1 = k2.
Proof.
  intros Hm E1 E2 Eid.
  rewrite <- (getMigrations_by_id_keys _ _ _ Hm _ _ E1).
  rewrite <- (getMigrations_by_id_keys _ _ _ Hm _ _ E2). exact Eid.
Qed.

(** ** The diff, line by line *)

Lemma terminated_cons (l : string) (ls : list string) :
  terminated (l :: ls) = l +:+ strings.nl +:+ terminated ls.
Proof.
  unfold terminated. simpl. destruct (map _ ls) eqn:E.
  - simpl. now rewrite append_nil_r.
  - now rewrite append_assoc.
Qed.

Lemma cut_line (l rest : string) :
  one_line l = true ->
  bufio.cut (l +:+ strings.nl +:+ rest) = l :: bufio.cut rest.
Proof.
  induction l as [|c l IH]; intros Hl.
  - reflexivity.
  - simpl in Hl. apply andb_true_iff in Hl as [Hc Hl].
    apply negb_true_iff in Hc. unfold is_line_feed in Hc.
    rewrite append_cons. simpl. rewrite Hc. now rewrite (IH Hl).
Qed.

Lemma cut_terminated (ls : list string) :
  Forall (fun l => one_line l = true) ls -> bufio.cut (terminated ls) = ls.
Proof.
  induction 1 as [|l ls Hl _ IH]; [reflexivity|].
  now rewrite terminated_cons, cut_line, IH.
Qed.

Lemma cut_one_line (data : string) :
  Forall (fun l => one_line l = true) (bufio.cut data).
Proof.
  induction data as [|c data IH]; [constructor|].
  cbn [bufio.cut].
  destruct (strings.byte c =? 10)%nat eqn:Hc.
  - constructor; [reflexivity | exact IH].
  - assert (Hcons : forall l, one_line l = true -> one_line (String c l) = true).
    { intros l Hl. unfold one_line in *. cbn [all_bytes].
      apply andb_true_iff. split; [|exact Hl].
      unfold is_line_feed. now rewrite Hc. }
    destruct (bufio.cut data) as [|l ls].
    + constructor; [|constructor]. now apply Hcons.
    + apply Forall_cons in IH as [Hl Hls]. constructor; [|exact Hls].
      now apply Hcons.
Qed.

Lemma dropCR_one_line (l : string) : one_line l = true -> one_line (bufio.dropCR l) = true.
Proof.
  unfold one_line. induction l as [|c l IH]; [reflexivity|].
  cbn [all_bytes]. intros [Hc Hl]%andb_true_iff.
  destruct l as [|c' l'].
  - cbn [bufio.dropCR]. destruct (strings.byte c =? 13)%nat; [reflexivity|].
    cbn [all_bytes]. now rewrite Hc.
  - change (bufio.dropCR (String c (String c' l')))
      with (String c (bufio.dropCR (String c' l'))).
    cbn [all_bytes]. apply andb_true_iff. split; [exact Hc | now apply IH].
Qed.

Lemma filter_surviving (lines : list string) :
  Forall (fun l => one_line l = true) lines ->
  Forall (fun l => one_line l = true) (surviving lines).
Proof.
  induction 1 as [|l ls Hl _ IH]; [constructor|].
  unfold surviving. simpl. destruct (negb (is_select l)); [constructor|]; assumption.
Qed.

(** X15: cut at its line feeds, the text [getChangesAuto] returns is the
    list of the lines of the captured output that do not begin with
    SELECT, and none of the lines returned begins with SELECT. *)
Theorem getChangesAuto_lines `{Orm} (db : Database) (models : list Model) :
  bufio.cut (getChangesAuto db models)
  = surviving (bufio.ScanLines (AutoMigrate (schema db) models))
  /\ Forall (fun l => is_select l = false) (bufio.cut (getChangesAuto db models)).
Proof.
  unfold getChangesAuto. rewrite fold_keep_line, append_nil_l.
  rewrite cut_terminated.
  - split; [reflexivity|]. unfold surviving.
    apply Forall_forall. intros l Hl. apply list_elem_of_In, filter_In in Hl as [_ Hl].
    now apply negb_true_iff.
  - apply filter_surviving. unfold bufio.ScanLines.
    apply Forall_forall. intros l Hl.
    apply list_elem_of_fmap in Hl as (l' & -> & Hl').
    apply dropCR_one_line.
    pose proof (cut_one_line (AutoMigrate (schema db) models)) as Hcut.
    rewrite Forall_forall in Hcut. now apply Hcut.
Qed.

(** ** The files that are written *)

Lemma Create_result (files files1 : gmap string node) (p : string) :
  os.Create files p = Ok files1 ->
  files1 !! p = Some (File "")
  /\ forall q, q <> p -> q <> fst (os.parent p) -> files1 !! q = files !! q.
Proof.
  unfold os.Create. destruct (os.parent p) as [d b]. simpl.
  destruct (files !! d) as [[entries|]|]; try discriminate.
  destruct (files !! p) as [[|]|]; try discriminate; intros [= <-].
  - split; [apply lookup_insert_eq|]. intros q Hp _. now rewrite lookup_insert_ne.
  - split; [apply lookup_insert_eq|]. intros q Hp Hd.
    now rewrite !lookup_insert_ne by congruence.
Qed.

(** X16: when [generateFiles] returns no error, the two files hold the
    header followed by their batch, and no other file has changed: apart
    from the two files only the listing of their folder can differ. *)
Theorem generateFiles_writes_two_files (files files' : gmap string node)
    (m : migration) (path : string) :
  generateFiles files m path = (files', None) ->
  let up := upFile path (id m) (name m) in
  let down := downFile path (id m) (name m) in
  os.ReadFile files' up = Ok (header +:+ migrationSQL m)
  /\ os.ReadFile files' down = Ok (header +:+ rollbackSQL m)
  /\ forall q, q <> up -> q <> down ->
       q <> fst (os.parent up) -> q <> fst (os.parent down) ->
       files' !! q = files !! q.
Proof.
  intros Hgen up down.
  destruct (generateFiles_written _ _ _ _ Hgen) as [Hup Hdown].
  split; [exact Hup|]. split; [exact Hdown|].
  revert Hgen. unfold generateFiles.
  change (path +:+ "/" +:+ id m +:+ "_" +:+ name m +:+ "_up.sql") with up.
  change (path +:+ "/" +:+ id m +:+ "_" +:+ name m +:+ "_down.sql") with down.
  destruct (os.ReadDir files path); try discriminate.
  destruct (os.Create files up) as [fs1| |] eqn:C1; try discriminate.
  destruct (os.Create fs1 down) as [fs2| |] eqn:C2; try discriminate.
  intros [= <-] q Hq1 Hq2 Hq3 Hq4. unfold os.Write.
  rewrite !lookup_insert_ne by congruence.
  apply Create_result in C1 as [_ F1]. apply Create_result in C2 as [_ F2].
  now rewrite F2, F1.
Qed.

(** X17: when the apply file is created and the rollback file cannot be,
    [generateFiles] returns the error of the second [os.Create] and leaves
    the apply file behind, empty. *)
Theorem generateFiles_leaves_first_file (files files1 : gmap string node)
    (m : migration) (path : string) (entries : list DirEntry) (e : string) :
  os.ReadDir files path = Ok entries ->
  os.Create files (upFile path (id m) (name m)) = Ok files1 ->
  os.Create files1 (downFile path (id m) (name m)) = Error e ->
  generateFiles files m path = (files1, Some e)
  /\ os.ReadFile files1 (upFile path (id m) (name m)) = Ok "".
Proof.
  intros Hdir Hup Hdown. split.
  - unfold generateFiles. rewrite Hdir.
    fold (upFile path (id m) (name m)). fold (downFile path (id m) (name m)).
    now rewrite Hup, Hdown.
  - apply Create_result in Hup as [Hup _]. unfold os.ReadFile. now rewrite Hup.
Qed.

(** X18: [CreateMigration] never changes the database, the dry run
    included; when the database answers and the files are written, the
    apply file holds the header followed by the diff, and the notice that
    no change was found is printed exactly when the diff is empty. *)
Theorem CreateMigration_writes_diff `{Orm} (w : World) (now : Z) (cfg : DBConfig)
    (migrationName : string) :
  let r := CreateMigration w now cfg migrationName in
  let diff := getChangesAuto (db w) (Models cfg) in
  db (fst r) = db w
  /\ (newDatabase cfg = None -> snd r = None ->
      os.ReadFile (fs (fst r))
        (upFile (MigrationsFolderPath cfg) (pretty now) migrationName)
      = Ok (header +:+ diff)
      /\ stdout (fst r)
         = (stdout w
              ++ (if String.eqb diff "" then ["No auto changes found." +:+ strings.nl]
                  else []))
             ++ ["Migration '" +:+ migrationName +:+ "' created successfully."
                 +:+ strings.nl]).
Proof.
  intros r diff. subst r. rewrite CreateMigration_unfold. split.
  - destruct (newDatabase cfg); cbv zeta; unfold create_with;
      destruct (generateFiles _ _ _) as [fs' [e|]]; reflexivity.
  - intros ->. cbv zeta. fold diff. unfold create_with.
    destruct (generateFiles _ _ _) as [fs' [e|]] eqn:G; [discriminate|].
    intros _. apply generateFiles_written in G as [G _]. simpl in G |- *.
    split; [exact G | reflexivity].
Qed.

(** ** What the two filters match *)

Lemma append_eq_nil (a b : string) : a +:+ b = "" -> a = "" /\ b = "".
Proof.
  destruct a; [rewrite append_nil_l; now intros -> | rewrite append_cons; discriminate].
Qed.

Lemma append_eq_cons (a b : string) (c : ascii) (s : string) :
  a +:+ b = String c s ->
  (a = "" /\ b = String c s) \/ exists a', a = String c a' /\ s = a' +:+ b.
Proof.
  destruct a as [|x a]; [rewrite append_nil_l; intros ->; now left|].
  rewrite append_cons. intros [= -> <-]. right. eauto.
Qed.

Lemma nullable_lang (r : regexp.re) : regexp.nullable r = true <-> lang r "".
Proof.
  split.
  - induction r; simpl; try discriminate; intros Hn.
    + constructor.
    + apply andb_true_iff in Hn as [H1 H2].
      change "" with ("" +:+ ""). constructor; auto.
    + apply orb_true_iff in Hn as [H1|H2]; [apply lang_alt_l | apply lang_alt_r]; auto.
    + constructor.
  - intros Hl. remember "" as s eqn:Es.
    induction Hl; simpl; try reflexivity; try discriminate.
    + apply append_eq_nil in Es as [-> ->]. now rewrite IHHl1, IHHl2.
    + now rewrite IHHl.
    + rewrite IHHl by assumption. apply orb_true_r.
Qed.

Lemma deriv_lang (c : ascii) (r : regexp.re) (s : string) :
  lang (regexp.deriv c r) s <-> lang r (String c s).
Proof.
  split.
  - revert s. induction r; simpl; intros s Hl.
    + inversion Hl.
    + inversion Hl.
    + destruct (p c) eqn:Hp; inversion Hl; subst. now constructor.
    + assert (Hleft : lang (regexp.Seq (regexp.deriv c r1) r2) s ->
                      lang (regexp.Seq r1 r2) (String c s)).
      { intros Hs. inversion Hs; subst. rewrite <- append_cons. constructor; auto. }
      destruct (regexp.nullable r1) eqn:Hn; [|auto].
      inversion Hl; subst; [auto|].
      change (String c s) with ("" +:+ String c s). constructor; auto.
      now apply nullable_lang.
    + inversion Hl; subst; [apply lang_alt_l | apply lang_alt_r]; auto.
    + inversion Hl; subst. rewrite <- append_cons. constructor; auto.
  - intros Hl. remember (String c s) as t eqn:Et. revert c s Et.
    induction Hl; intros c0 s0 Et; simpl; try discriminate.
    + injection Et as -> <-. rewrite H. constructor.
    + apply append_eq_cons in Et as [[-> ->]|(a' & -> & ->)].
      * assert (Hn : regexp.nullable r1 = true) by now apply nullable_lang.
        rewrite Hn. apply lang_alt_r. auto.
      * assert (Hs : lang (regexp.Seq (regexp.deriv c0 r1) r2) (a' +:+ s2))
          by (constructor; auto).
        destruct (regexp.nullable r1); [now apply lang_alt_l | exact Hs].
    + apply lang_alt_l. auto.
    + apply lang_alt_r. auto.
    + apply append_eq_cons in Et as [[-> ->]|(a' & -> & ->)].
      * now apply IHHl2.
      * constructor; auto.
Qed.

(** [MatchString] decides the texts of the expression. *)
Lemma MatchString_lang (r : regexp.re) (s : string) :
  regexp.MatchString r s = true <-> lang r s.
Proof.
  revert r. induction s as [|c s IH]; intros r; simpl.
  - apply nullable_lang.
  - rewrite IH. apply deriv_lang.
Qed.


Lemma lang_Lit_inv (l s : string) : lang (regexp.Lit l) s -> s = l.
Proof.
  revert s. induction l as [|c l IH]; simpl; intros s Hl.
  - now inversion Hl.
  - inversion Hl as [| |r1 r2 s1 s2 H1 H2| | | |]; subst.
    inversion H1; subst. apply Ascii.eqb_eq in H0 as <-.
    rewrite append_cons, append_nil_l. f_equal. now apply IH.
Qed.



Lemma all_bytes_app (P : ascii -> bool) (a b : string) :
  all_bytes P (a +:+ b) = all_bytes P a && all_bytes P b.
Proof.
  induction a as [|c a IH]; [reflexivity|].
  rewrite append_cons. cbn [all_bytes]. now rewrite IH, andb_assoc.
Qed.


Lemma srev_app (a b : string) : srev (a +:+ b) = srev b +:+ srev a.
Proof.
  induction a as [|c a IH].
  - rewrite append_nil_l. simpl. now rewrite append_nil_r.
  - rewrite append_cons. simpl. now rewrite IH, append_assoc.
Qed.

Lemma all_bytes_srev (P : ascii -> bool) (s : string) :
  all_bytes P (srev s) = all_bytes P s.
Proof.
  induction s as [|c s IH]; [reflexivity|].
  simpl. rewrite all_bytes_app, IH. cbn [all_bytes].
  now rewrite andb_true_r, andb_comm.
Qed.

Lemma srev_eq_nil (s : string) : srev s = "" -> s = "".
Proof.
  destruct s as [|c s]; [reflexivity|]. simpl. intros E.
  apply append_eq_nil in E as [_ E]. discriminate E.
Qed.

Lemma lang_rng_inv (lo hi : nat) (s : string) :
  lang (regexp.rng lo hi) s ->
  exists b, s = String b "" /\ strings.in_range lo hi b = true.
Proof. intros Hl. inversion Hl; subst. eauto. Qed.

Lemma in_range_high (lo hi : nat) (b : ascii) :
  128 <= lo -> strings.in_range lo hi b = true -> is_high b = true.
Proof.
  unfold strings.in_range, is_high. intros Hlo [H1 _]%andb_true_iff.
  apply Nat.leb_le in H1. apply Nat.leb_le. lia.
Qed.

Ltac invert_lang :=
  repeat match goal with
    | H : lang (regexp.Alt _ _) _ |- _ => inversion H; subst; clear H
    | H : lang (regexp.Seq _ _) _ |- _ => inversion H; subst; clear H
    | H : lang (regexp.rng _ _) _ |- _ =>
        apply lang_rng_inv in H as (? & -> & ?%in_range_high); [|lia]
    | H : lang regexp.cont _ |- _ =>
        apply (lang_rng_inv 128 191) in H as (? & -> & ?%in_range_high); [|lia]
    end.

(** A sequence of more than one byte has only bytes from 128 on. *)
Lemma lang_multi_high (c : string) :
  lang regexp.utf8_multi c -> c <> "" /\ all_bytes is_high c = true.
Proof.
  unfold regexp.utf8_multi. intros Hl. invert_lang;
    rewrite ?append_cons, ?append_nil_l; cbn [all_bytes];
    (split; [discriminate|]);
    repeat match goal with H : is_high _ = true |- _ => rewrite H; clear H end;
    reflexivity.
Qed.

(** Backwards, what the dot matches is a byte followed by bytes from 128
    on. *)
Lemma srev_dot (c : string) :
  lang regexp.dot c ->
  exists l h, srev c = String l h /\ all_bytes is_high h = true.
Proof.
  unfold regexp.dot. intros Hl.
  inversion Hl as [| | |r1 r2 s Hs|r1 r2 s Hs| |]; subst.
  - inversion Hs; subst. exists c0, "". split; reflexivity.
  - apply lang_multi_high in Hs as [Hne Hhigh].
    rewrite <- all_bytes_srev in Hhigh.
    destruct (srev c) as [|l h] eqn:E.
    + apply srev_eq_nil in E. contradiction.
    + exists l, h. split; [reflexivity|].
      cbn [all_bytes] in Hhigh. now apply andb_true_iff in Hhigh as [_ Hh].
Qed.

(** The apply filter wants [_up], a character and [sql] at the end, the
    rollback filter [_down], a character and [sql]. *)
Lemma migrationsFilter_suffix (s : string) :
  lang migrationsFilter s ->
  exists x c, s = x +:+ "_up" +:+ c +:+ "sql" /\ lang regexp.dot c.
Proof.
  unfold migrationsFilter. intros Hl.
  inversion Hl as [| |? ? d s1 Hd H1| | | |]; subst. clear Hl Hd.
  inversion H1 as [| |? ? m s2 Hm H2| | | |]; subst. clear H1 Hm.
  inversion H2 as [| |? ? a s3 Ha H3| | | |]; subst. clear H2.
  inversion H3 as [| |? ? c z Hc Hz| | | |]; subst. clear H3.
  apply (lang_Lit_inv "_up") in Ha as ->.
  apply (lang_Lit_inv "sql") in Hz as ->.
  exists (d +:+ m), c. split; [now rewrite append_assoc | exact Hc].
Qed.

Lemma rollbackFilter_suffix (s : string) :
  lang rollbackFilter s ->
  exists x c, s = x +:+ "_down" +:+ c +:+ "sql" /\ lang regexp.dot c.
Proof.
  unfold rollbackFilter. intros Hl.
  inversion Hl as [| |? ? d s1 Hd H1| | | |]; subst. clear Hl Hd.
  inversion H1 as [| |? ? m s2 Hm H2| | | |]; subst. clear H1 Hm.
  inversion H2 as [| |? ? a s3 Ha H3| | | |]; subst. clear H2.
  inversion H3 as [| |? ? c z Hc Hz| | | |]; subst. clear H3.
  apply (lang_Lit_inv "_down") in Ha as ->.
  apply (lang_Lit_inv "sql") in Hz as ->.
  exists (d +:+ m), c. split; [now rewrite append_assoc | exact Hc].
Qed.

Lemma high_prefix_unique (h h' : string) (a b : ascii) (A B : string) :
  all_bytes is_high h = true -> all_bytes is_high h' = true ->
  is_high a = false -> is_high b = false ->
  h +:+ String a A = h' +:+ String b B -> a = b.
Proof.
  revert h'. induction h as [|c h IH]; intros [|c' h']; cbn [all_bytes];
    rewrite ?append_cons, ?append_nil_l; intros Hh Hh' Ha Hb E.
  - now injection E.
  - injection E as -> _. apply andb_true_iff in Hh' as [Hc _]. congruence.
  - injection E as -> _. apply andb_true_iff in Hh as [Hc _]. congruence.
  - injection E as _ E. apply andb_true_iff in Hh as [_ Hh].
    apply andb_true_iff in Hh' as [_ Hh']. eauto.
Qed.

Lemma lang_filters_disjoint (s : string) :
  lang migrationsFilter s -> lang rollbackFilter s -> False.
Proof.
  intros (x & c & -> & Hc)%migrationsFilter_suffix
         (y & c' & E & Hc')%rollbackFilter_suffix.
  apply (f_equal srev) in E. rewrite !srev_app in E.
  apply srev_dot in Hc as (l & h & El & Hh).
  apply srev_dot in Hc' as (l' & h' & El' & Hh').
  rewrite El, El' in E.
  change (srev "sql") with "lqs" in E. change (srev "_up") with "pu_" in E.
  change (srev "_down") with "nwod_" in E.
  rewrite !append_assoc in E. apply String.app_inj in E.
  rewrite !append_cons in E. injection E as _ E.
  change ("pu_" +:+ srev x) with (String "p" ("u_" +:+ srev x)) in E.
  change ("nwod_" +:+ srev y) with (String "n" ("wod_" +:+ srev y)) in E.
  apply high_prefix_unique in E; try assumption; try reflexivity. discriminate E.
Qed.

(** X19: no file name passes both filters, so that a file is never taken
    for an apply file and a rollback file at once and the order of the two
    tests in the loop of [getMigrations] does not matter. *)
Theorem filters_exclusive (fileName : string) :
  regexp.MatchString migrationsFilter fileName = true ->
  regexp.MatchString rollbackFilter fileName = false.
Proof.
  intros Hup. destruct (regexp.MatchString rollbackFilter fileName) eqn:Hdown;
    [exfalso | reflexivity].
  apply MatchString_lang in Hup, Hdown. exact (lang_filters_disjoint _ Hup Hdown).
Qed.

(** ** Creating a migration, then discovering it *)












Lemma digit_not_line_feed (c : ascii) :
  is_digit c = true -> negb (is_line_feed c) = true.
Proof.
  unfold is_digit, strings.in_range, is_line_feed. intros [H1 _]%andb_true_iff.
  apply Nat.leb_le in H1. apply negb_true_iff, Nat.eqb_neq. lia.
Qed.










(** ** Running twice *)

Section Again.
Context `{Orm}.

(** What a run that succeeds leaves behind. *)
Lemma RunMigrations_success (order : list string) (w : World) (cfg : DBConfig)
    (out : list string) (migrations : gmap string migration) :
  newDatabase cfg = None ->
  getMigrations (fs w) (MigrationsFolderPath cfg) = (out, Ok migrations) ->
  range_order order migrations ->
  snd (RunMigrations order w cfg) = Ok tt ->
  migrations <> ∅
  /\ NoDup (map id (range_map order migrations))
  /\ exists db',
       RunMigrations order w cfg
       = (mkWorld (fs w) db'
            ((stdout w ++ out) ++ ["Migrations successful" +:+ strings.nl]), Ok tt)
       /\ ledger db'
          = Some (default [] (ledger (db w))
                    ++ filter (fun i => i ∉ default [] (ledger (db w)))
                         (map id (range_map order migrations))).
Proof.
  intros Hopen Hget Horder.
  destruct (decide (migrations = ∅)) as [->|Hne].
  { unfold RunMigrations, setupManager. rewrite Hopen, Hget. discriminate. }
  destruct (map_choose _ Hne) as (k & u & Hk).
  unfold RunMigrations. rewrite (setupManager_units _ _ _ _ _ _ _ Hopen Hget Hk).
  simpl.
  assert (Hvalid : Forall valid_id (map id (range_map order migrations))).
  { apply range_map_valid. eapply getMigrations_ids_valid, Hget. }
  destruct (Migrate_cases (range_map order migrations) (db w) Hvalid)
    as [[_ [i ->]]|[Hnd (t & Hlast & ->)]].
  - now apply range_map_nonempty.
  - discriminate.
  - rewrite runMigrations_target by assumption.
    destruct (gormigrate.runMigrations _ "" _) as [db' [e|]] eqn:Hrun; [discriminate|].
    intros _. split; [exact Hne|]. split; [exact Hnd|]. exists db'.
    split; [reflexivity|].
    apply (runMigrations_pending _ _ _ _ (createTable_ledger (db w))) in Hrun;
      assumption.
Qed.

(** X21: [RunMigrations] can be run again: after a run that succeeds, a
    second run over the same folder succeeds too, in whatever order the
    map is ranged over this time, and leaves the database as the first run
    left it: no batch is sent a second time. *)
Theorem RunMigrations_twice (order order' : list string) (w : World) (cfg : DBConfig)
    (out : list string) (migrations : gmap string migration) :
  newDatabase cfg = None ->
  getMigrations (fs w) (MigrationsFolderPath cfg) = (out, Ok migrations) ->
  range_order order migrations ->
  range_order order' migrations ->
  snd (RunMigrations order w cfg) = Ok tt ->
  let w1 := fst (RunMigrations order w cfg) in
  RunMigrations order' w1 cfg
  = (mkWorld (fs w1) (db w1)
       ((stdout w1 ++ out) ++ ["Migrations successful" +:+ strings.nl]), Ok tt).
Proof.
  intros Hopen Hget Horder Horder' Hok w1.
  destruct (RunMigrations_success _ _ _ _ _ Hopen Hget Horder Hok)
    as (Hne & Hnd & db' & Hrun & Hrows).
  subst w1. rewrite Hrun. cbn [fst fs db stdout].
  set (rows := default [] (ledger (db w))) in *.
  set (w1 := mkWorld (fs w) db' _).
  assert (Hget1 : getMigrations (fs w1) (MigrationsFolderPath cfg) = (out, Ok migrations))
    by exact Hget.
  destruct (map_choose _ Hne) as (k & u & Hk).
  unfold RunMigrations. rewrite (setupManager_units _ _ _ _ _ _ _ Hopen Hget1 Hk).
  simpl.
  assert (Hvalid : Forall valid_id (map id (range_map order' migrations))).
  { apply range_map_valid. eapply getMigrations_ids_valid, Hget. }
  destruct (Migrate_cases (range_map order' migrations) db' Hvalid)
    as [[Hdup _]|[_ (t & Hlast & ->)]].
  - now apply range_map_nonempty.
  - exfalso. apply Hdup. apply range_map_ids_NoDup; [apply Horder'|].
    intros k1 k2 u1 u2 E1 E2.
    apply (range_map_NoDup_ids order migrations k1 k2 u1 u2 Hnd);
      try assumption; apply (range_order_elem _ _ _ Horder); eauto.
  - unfold gormigrate.createMigrationTableIfNotExists. rewrite Hrows.
    rewrite (runMigrations_all_ran _ _ _ _ Hrows); [reflexivity|].
    apply Forall_forall. intros u' Hu'.
    apply range_map_elem in Hu' as (k' & _ & Hk'). split.
    + apply (getMigrations_ids_valid _ _ _ _ Hget k' u' Hk').
    + assert (Hin : id u' ∈ map id (range_map order migrations)).
      { apply list_elem_of_fmap. exists u'. split; [reflexivity|].
        apply range_map_elem. exists k'. split; [|exact Hk'].
        apply (range_order_elem _ _ _ Horder). eauto. }
      apply elem_of_app. destruct (decide (id u' ∈ rows)) as [Hr|Hr]; [now left|].
      right. apply list_elem_of_filter. split; assumption.
Qed.

End Again.

(** ** The further properties on concrete folders *)

Lemma three_map_ids_distinct (k1 k2 : string) (u1 u2 : migration) :
  three_map !! k1 = Some u1 -> three_map !! k2 = Some u2 -> id u1 = id u2 -> k1 = k2.
Proof.
  assert (Horder : range_order ["1_a"; "2_b"; "3_c"] three_map) by (split; by_decide).
  intros E1 E2. apply (range_map_NoDup_ids ["1_a"; "2_b"; "3_c"] three_map k1 k2 u1 u2);
    try assumption; [by_decide| |]; apply (range_order_elem _ _ _ Horder); eauto.
Defined.

Lemma RunMigrations_all_applied_witness :
  RunMigrations ["3_c"; "1_a"; "2_b"] three_applied (Mem.config "m")
  = (mkWorld (fs three_applied) (db three_applied)
       ((stdout three_applied ++ []) ++ ["Migrations successful" +:+ strings.nl]), Ok tt).
Proof.
  apply (RunMigrations_all_applied ["3_c"; "1_a"; "2_b"] three_applied (Mem.config "m")
           [] three_map ["1"; "2"; "3"]).
  - reflexivity.
  - vm_compute. reflexivity.
  - by_decide.
  - split; by_decide.
  - exact three_map_ids_distinct.
  - reflexivity.
  - change (map_Forall (fun _ u => id u ∈ ["1"; "2"; "3"]) three_map). by_decide.
Defined.

Lemma RunMigrations_applies_pending_witness :
  ledger (db (fst (RunMigrations ["3_c"; "1_a"; "2_b"] three_pending (Mem.config "m"))))
  = Some (default [] (ledger (db three_pending))
            ++ filter (fun i => i ∉ default [] (ledger (db three_pending)))
                 (map id (range_map ["3_c"; "1_a"; "2_b"] three_map))).
Proof.
  apply (RunMigrations_applies_pending ["3_c"; "1_a"; "2_b"] three_pending
           (Mem.config "m") [] three_map).
  - reflexivity.
  - vm_compute. reflexivity.
  - split; by_decide.
  - vm_compute. reflexivity.
Defined.

Lemma RollbackMigration_undoes_last_run_witness :
  RollbackMigration ["1_a"; "2_b"; "3_c"] three_applied (Mem.config "m")
  = (mkWorld three_folder
       (Mem.database
          ["CREATE TABLE a"; "CREATE TABLE b"; "CREATE TABLE c"; "DROP TABLE c"]
          (Some ["1"; "2"]) [Begin; Run "DROP TABLE c"; Commit])
       ["Rollback successful" +:+ strings.nl], Ok tt).
Proof.
  apply (RollbackMigration_undoes_last_run ["1_a"; "2_b"; "3_c"] three_applied
           (Mem.config "m") [] three_map ["1"; "2"; "3"]
           [mkMigration "1" "" "CREATE TABLE a" "DROP TABLE a";
            mkMigration "2" "" "CREATE TABLE b" "DROP TABLE b"]
           []
           (mkMigration "3" "" "CREATE TABLE c" "DROP TABLE c")
           ["CREATE TABLE a"; "CREATE TABLE b"; "CREATE TABLE c"; "DROP TABLE c"]).
  - reflexivity.
  - vm_compute. reflexivity.
  - vm_compute. reflexivity.
  - reflexivity.
  - by_decide.
  - constructor.
  - reflexivity.
  - reflexivity.
Defined.

Lemma RollbackMigration_failure_keeps_id_witness :
  RollbackMigration ["1_a"] stuck_applied (Mem.config "m")
  = (mkWorld stuck_folder
       (Mem.database ["CREATE TABLE a"] (Some ["1"])
          [Begin; Run "BAD TABLE a"; Rollback])
       [], Error "syntax error near BAD TABLE a").
Proof.
  apply (RollbackMigration_failure_keeps_id ["1_a"] stuck_applied (Mem.config "m") []
           {[ "1_a" := mkMigration "1" "" "CREATE TABLE a" "BAD TABLE a" ]} ["1"]
           [] [] (mkMigration "1" "" "CREATE TABLE a" "BAD TABLE a")
           "syntax error near BAD TABLE a").
  - reflexivity.
  - vm_compute. reflexivity.
  - vm_compute. reflexivity.
  - reflexivity.
  - by_decide.
  - constructor.
  - reflexivity.
Defined.

Lemma RollbackMigration_nothing_applied_witness :
  RollbackMigration ["2_b"; "3_c"; "1_a"] three_pending (Mem.config "m")
  = (mkWorld three_folder (db three_pending) [],
     Error "gormigrate: Could not find last run migration").
Proof.
  apply (RollbackMigration_nothing_applied ["2_b"; "3_c"; "1_a"] three_pending
           (Mem.config "m") [] three_map []).
  - reflexivity.
  - vm_compute. reflexivity.
  - by_decide.
  - split; by_decide.
  - reflexivity.
  - intros k u _ Hin. inversion Hin.
Defined.

Lemma missing_folder_is_reported_witness :
  RunMigrations [] Mem.bare (Mem.config "./missing")
  = (mkWorld ∅ Mem.empty_db [],
     Error "open ./missing: no such file or directory")
  /\ RollbackMigration [] Mem.bare (Mem.config "./missing")
     = (mkWorld ∅ Mem.empty_db [],
        Error "open ./missing: no such file or directory").
Proof.
  exact (missing_folder_is_reported [] Mem.bare (Mem.config "./missing") eq_refl
           (lookup_empty _)).
Defined.

Lemma getMigrations_last_file_wins_witness :
  side (mkMigration "1" "" "CREATE TABLE a" "DROP TABLE a") true
  = default "" (last_content (classify pair_folder "m") pair_listing "1_a" true).
Proof.
  apply (getMigrations_last_file_wins pair_folder "m" pair_listing pair_map "1_a").
  - vm_compute. reflexivity.
  - vm_compute. reflexivity.
  - vm_compute. reflexivity.
Defined.

Lemma getMigrations_keys_witness :
  is_Some (pair_map !! "1_a") <->
  exists f content,
    f ∈ pair_listing /\ IsDir f = false
    /\ os.ReadFile pair_folder ("m" +:+ "/" +:+ Name f) = Ok content
    /\ (regexp.MatchString migrationsFilter (Name f) = true
        \/ regexp.MatchString rollbackFilter (Name f) = true)
    /\ "1_a" = strings.Join (take 2 (strings.Split (Name f) "_")) "_".
Proof.
  apply (getMigrations_keys pair_folder "m" pair_listing pair_map "1_a").
  - vm_compute. reflexivity.
  - vm_compute. reflexivity.
Defined.

Lemma getMigrations_unit_shape_witness :
  digit_led "1" /\ "1" = hd "" (strings.Split "1_a" "_") /\ "" = "".
Proof.
  apply (getMigrations_unit_shape pair_folder "m" pair_map "1_a"
           (mkMigration "1" "" "CREATE TABLE a" "DROP TABLE a")).
  - vm_compute. reflexivity.
  - vm_compute. reflexivity.
Defined.

Lemma getMigrations_returns_witness :
  exists m, snd (getMigrations pair_folder "m") = Ok m.
Proof.
  apply (getMigrations_returns pair_folder "m" pair_listing).
  - vm_compute. reflexivity.
  - intros f content Hf _ _. unfold pair_listing in Hf.
    apply elem_of_cons in Hf as [->|Hf]; [vm_compute; lia|].
    apply list_elem_of_singleton in Hf as ->. vm_compute. lia.
Defined.

Lemma getMigrations_warns_once_per_unreadable_witness :
  fst (getMigrations dangling_folder "m")
  = omap (unreadable_warning dangling_folder "m")
      (mkDirEntry "9_x_up.sql" false :: pair_listing).
Proof.
  apply (getMigrations_warns_once_per_unreadable dangling_folder "m"
           (mkDirEntry "9_x_up.sql" false :: pair_listing) pair_map).
  - vm_compute. reflexivity.
  - vm_compute. reflexivity.
Defined.

Lemma getMigrations_by_id_returns_witness :
  exists m, snd (ById.getMigrations readme_folder "m") = Ok m.
Proof.
  apply (getMigrations_by_id_returns readme_folder "m"
           [mkDirEntry "1_a_down.sql" false; mkDirEntry "1_a_up.sql" false;
            mkDirEntry "README.md" false]).
  vm_compute. reflexivity.
Defined.

Lemma getMigrations_by_id_distinct_ids_witness :
  snd (ById.getMigrations twin_folder "m")
  = Ok {[ "1700000000" := mkMigration "1700000000" "" header header ]}
  /\ "1700000000" = "1700000000".
Proof.
  split; [vm_compute; reflexivity|].
  apply (getMigrations_by_id_distinct_ids twin_folder "m"
           {[ "1700000000" := mkMigration "1700000000" "" header header ]}
           "1700000000" "1700000000"
           (mkMigration "1700000000" "" header header)
           (mkMigration "1700000000" "" header header)).
  - vm_compute. reflexivity.
  - vm_compute. reflexivity.
  - vm_compute. reflexivity.
  - reflexivity.
Defined.

Lemma generateFiles_writes_two_files_witness :
  os.ReadFile
    (fst (generateFiles (fs Mem.fresh) (mkMigration "1" "a" "CREATE TABLE a" "") "m"))
    "m/1_a_up.sql"
  = Ok (header +:+ "CREATE TABLE a").
Proof.
  pose proof (generateFiles_writes_two_files (fs Mem.fresh)
                (fst (generateFiles (fs Mem.fresh)
                        (mkMigration "1" "a" "CREATE TABLE a" "") "m"))
                (mkMigration "1" "a" "CREATE TABLE a" "") "m"
                ltac:(vm_compute; reflexivity)) as Hfiles.
  cbv zeta in Hfiles. destruct Hfiles as [Hup _]. exact Hup.
Defined.

Lemma generateFiles_leaves_first_file_witness :
  snd (generateFiles blocked_folder (mkMigration "1" "a" "CREATE TABLE a" "") "m")
  = Some "open m/1_a_down.sql: is a directory"
  /\ os.ReadFile
       (fst (generateFiles blocked_folder (mkMigration "1" "a" "CREATE TABLE a" "") "m"))
       "m/1_a_up.sql"
     = Ok "".
Proof.
  destruct (generateFiles_leaves_first_file blocked_folder
              (fst (generateFiles blocked_folder
                      (mkMigration "1" "a" "CREATE TABLE a" "") "m"))
              (mkMigration "1" "a" "CREATE TABLE a" "") "m"
              [mkDirEntry "1_a_down.sql" true]
              "open m/1_a_down.sql: is a directory")
    as [Hgen Hread].
  - vm_compute. reflexivity.
  - vm_compute. reflexivity.
  - vm_compute. reflexivity.
  - split; [now rewrite Hgen | exact Hread].
Defined.

Lemma filters_exclusive_witness :
  regexp.MatchString rollbackFilter "1700000000_test0_up.sql" = false.
Proof. apply filters_exclusive. vm_compute. reflexivity. Defined.


Lemma RunMigrations_twice_witness :
  RunMigrations ["1_a"; "2_b"; "3_c"]
    (fst (RunMigrations ["3_c"; "1_a"; "2_b"] (Mem.world three_folder) (Mem.config "m")))
    (Mem.config "m")
  = (mkWorld three_folder
       (Mem.database ["CREATE TABLE c"; "CREATE TABLE a"; "CREATE TABLE b"]
          (Some ["3"; "1"; "2"])
          [Begin; Run "CREATE TABLE c"; Commit; Begin; Run "CREATE TABLE a"; Commit;
           Begin; Run "CREATE TABLE b"; Commit])
       ["Migrations successful" +:+ strings.nl; "Migrations successful" +:+ strings.nl],
     Ok tt).
Proof.
  pose proof (RunMigrations_twice ["3_c"; "1_a"; "2_b"] ["1_a"; "2_b"; "3_c"]
                (Mem.world three_folder) (Mem.config "m") [] three_map) as Htwice.
  cbv zeta in Htwice. rewrite Htwice.
  - vm_compute. reflexivity.
  - reflexivity.
  - vm_compute. reflexivity.
  - split; by_decide.
  - split; by_decide.
  - vm_compute. reflexivity.
Defined.
